(** * obscli: the reconcile command

    A shallow embedding of [cmd/reconcile.go] and [cmd/root.go]: the
    comparison of a manifest project with the project stored on the Open
    Build Service, the loop that updates the projects that differ, the
    lookup of the credentials, and the exit status of the process. *)

From stdpp Require Import base option list strings gmap.

Local Open Scope string_scope.

(** ** Go values

    A Go [string] is a sequence of bytes compared with [==]: Rocq's
    [string].  A slice is a [list]; a nil slice and an empty slice both have
    length 0 and are the empty list.  An [error] is represented by its message,
    which is all that [%v] prints of it. *)

Definition error := string.

(** How a call ends: it returns, it panics (an index out of range), or it
    ends the process ([os.Exit], [log.Fatalf]). *)
Inductive result (A : Type) : Type :=
| Ok (a : A)
| Panic (msg : string)
| Exit (status : Z).
Arguments Ok {A} a.
Arguments Panic {A} msg.
Arguments Exit {A} status.

#[global] Instance result_ret : MRet result := fun A a => Ok a.
#[global] Instance result_bind : MBind result := fun A B f m =>
  match m with
  | Ok a => f a
  | Panic msg => Panic msg
  | Exit status => Exit status
  end.

(** The newline of the format strings. *)
Definition nl : string := String (Ascii.ascii_of_nat 10) EmptyString.

(** [xs[i]] on a slice. *)
Definition index {A : Type} (xs : list A) (i : nat) : result A :=
  match xs !! i with
  | Some x => Ok x
  | None => Panic "index out of range"
  end.

(** ** The data model *)

Module obs.

(** Modelled from the spec: the declarations of [obs.Person],
    [obs.Repository] and [obs.Project] (package [sigs.k8s.io/release-sdk/obs])
    are not among the sources; the records have the fields the spec lists,
    which are the fields [cmd/reconcile.go] reads.  Go's field [Repository]
    of the struct [Repository] is [RepositoryName] here, as a record and its
    field cannot share a name. *)
Record Person : Type := {
  UserID : string;
  Role : string
}.

Record Repository : Type := {
  RepositoryName : string;
  Architectures : list string
}.

Record Project : Type := {
  Name : string;
  Title : string;
  Description : string;
  URL : string;
  Persons : list Person;
  Repositories : list Repository
}.

(** Modelled from the spec: [obs.Options] and the client [obs.OBS] that
    [obs.New] builds from them are declared in the same absent package; the
    client is represented by the options it was built from. *)
Record Options : Type := {
  Username : string;
  Password : string;
  APIURL : string
}.

Record OBS : Type := New { options : Options }.

End obs.

Module types.

(** Modelled from the spec: the declaration of [types.Project] (package
    [sigs.k8s.io/obscli/types]) is not among the sources.  The code reads
    [prj.Name] and passes [&prj.Project]: the struct embeds an
    [obs.Project], whose fields are promoted. *)
Record Project : Type := {
  embedded : obs.Project
}.

Record Projects : Type := {
  Projects_ : list Project
}.

End types.

(** ** The comparison *)

Fixpoint comparePersons_loop (i : nat) (localPersons remotePersons : list obs.Person)
  : result bool :=
  match localPersons with
  | [] => Ok true
  | localPerson :: rest =>
      remotePerson ← index remotePersons i;
      if bool_decide (obs.UserID localPerson ≠ obs.UserID remotePerson)
         || bool_decide (obs.Role localPerson ≠ obs.Role remotePerson)
      then Ok false
      else comparePersons_loop (S i) rest remotePersons
  end.

Definition comparePersons (localPersons remotePersons : list obs.Person) : result bool :=
  if bool_decide (length localPersons ≠ length remotePersons) then Ok false
  else comparePersons_loop 0 localPersons remotePersons.

Fixpoint compareArchitectures_loop (i : nat) (localArchs remoteArchs : list string)
  : result bool :=
  match localArchs with
  | [] => Ok true
  | localArch :: rest =>
      remoteArch ← index remoteArchs i;
      if bool_decide (localArch ≠ remoteArch) then Ok false
      else compareArchitectures_loop (S i) rest remoteArchs
  end.

Definition compareArchitectures (localArchs remoteArchs : list string) : result bool :=
  if bool_decide (length localArchs ≠ length remoteArchs) then Ok false
  else compareArchitectures_loop 0 localArchs remoteArchs.

(** [a || !f()] evaluates [f] only when [a] is false. *)
Fixpoint compareRepositories_loop (i : nat) (localRepos remoteRepos : list obs.Repository)
  : result bool :=
  match localRepos with
  | [] => Ok true
  | localRepo :: rest =>
      remoteRepo ← index remoteRepos i;
      if bool_decide (obs.RepositoryName localRepo ≠ obs.RepositoryName remoteRepo)
      then Ok false
      else
        archs ← compareArchitectures (obs.Architectures localRepo)
                                     (obs.Architectures remoteRepo);
        if negb archs then Ok false
        else compareRepositories_loop (S i) rest remoteRepos
  end.

Definition compareRepositories (localRepos remoteRepos : list obs.Repository)
  : result bool :=
  if bool_decide (length localRepos ≠ length remoteRepos) then Ok false
  else compareRepositories_loop 0 localRepos remoteRepos.

(** [remote] is the project a non-nil [*obs.Project] points to.  The result
    is [different]: [true] when an update is needed. *)
Definition compareProjects (local : types.Project) (remote : obs.Project) : result bool :=
  let l := types.embedded local in
  if bool_decide (obs.Name l ≠ obs.Name remote) then Ok true
  else if bool_decide (obs.Title l ≠ obs.Title remote) then Ok true
  else if bool_decide (obs.Description l ≠ obs.Description remote) then Ok true
  else if bool_decide (obs.URL l ≠ obs.URL remote) then Ok true
  else
    persons ← comparePersons (obs.Persons l) (obs.Persons remote);
    if negb persons then Ok true
    else
      repos ← compareRepositories (obs.Repositories l) (obs.Repositories remote);
      if negb repos then Ok true
      else Ok false.

(** ** The equivalence of the specification

    Two projects are equivalent when the four scalar fields are equal, the
    person lists have the same length and agree at every position on
    [(user_id, role)], and the repository lists have the same length and agree
    at every position on the repository name and, position by position, on
    architecture lists of the same length. *)

Definition archs_positionally_equal (ls rs : list string) : Prop :=
  length ls = length rs /\
  forall j a b, ls !! j = Some a -> rs !! j = Some b -> a = b.

Definition persons_positionally_equal (ls rs : list obs.Person) : Prop :=
  length ls = length rs /\
  forall i l r, ls !! i = Some l -> rs !! i = Some r ->
    obs.UserID l = obs.UserID r /\ obs.Role l = obs.Role r.

Definition repositories_positionally_equal (ls rs : list obs.Repository) : Prop :=
  length ls = length rs /\
  forall i l r, ls !! i = Some l -> rs !! i = Some r ->
    obs.RepositoryName l = obs.RepositoryName r /\
    archs_positionally_equal (obs.Architectures l) (obs.Architectures r).

Definition equivalent (local : types.Project) (remote : obs.Project) : Prop :=
  let l := types.embedded local in
  obs.Name l = obs.Name remote /\
  obs.Title l = obs.Title remote /\
  obs.Description l = obs.Description remote /\
  obs.URL l = obs.URL remote /\
  persons_positionally_equal (obs.Persons l) (obs.Persons remote) /\
  repositories_positionally_equal (obs.Repositories l) (obs.Repositories remote).

(** The same relations, element by element, in a form that can be decided. *)

Definition person_eq (l r : obs.Person) : Prop :=
  obs.UserID l = obs.UserID r /\ obs.Role l = obs.Role r.

Definition repository_eq (l r : obs.Repository) : Prop :=
  obs.RepositoryName l = obs.RepositoryName r /\
  Forall2 eq (obs.Architectures l) (obs.Architectures r).

Definition project_eq (l r : obs.Project) : Prop :=
  obs.Name l = obs.Name r /\
  obs.Title l = obs.Title r /\
  obs.Description l = obs.Description r /\
  obs.URL l = obs.URL r /\
  Forall2 person_eq (obs.Persons l) (obs.Persons r) /\
  Forall2 repository_eq (obs.Repositories l) (obs.Repositories r).

#[global] Instance person_eq_dec : RelDecision person_eq.
Proof. intros l r. unfold person_eq. apply _. Defined.

#[global] Instance repository_eq_dec : RelDecision repository_eq.
Proof. intros l r. unfold repository_eq. apply _. Defined.

#[global] Instance project_eq_dec : RelDecision project_eq.
Proof. intros l r. unfold project_eq. apply _. Defined.

(** ** The credentials *)

(** [os.Getenv]: the value of the variable, empty when it is not set. *)
Definition os_Getenv (env : gmap string string) (key : string) : string :=
  default EmptyString (env !! key).

Record Info : Type := {
  Username : string;
  Password : string;
  APIURL : string;
  OBSClient : obs.OBS
}.

Definition DefaultAPIURL : string := "https://api.opensuse.org/".

(** Go's pair of an [Info] pointer and an error is a sum: [inl err] when
    [err != nil]. *)
Definition GetOBSCredentials (env : gmap string string) (apiURL : string) : error + Info :=
  let username := os_Getenv env "OBS_USERNAME" in
  if bool_decide (username = EmptyString)
  then inl "OBS_USERNAME environment variable not set"
  else
    let password := os_Getenv env "OBS_PASSWORD" in
    if bool_decide (password = EmptyString)
    then inl "OBS_PASSWORD environment variable not set"
    else
      let obsClient := obs.New {| obs.Username := username;
                                  obs.Password := password;
                                  obs.APIURL := apiURL |} in
      inr {| Username := username;
             Password := password;
             APIURL := apiURL;
             OBSClient := obsClient |}.

(** ** The reconcile command *)

(** What the command does to the outside: the calls of the OBS client and the
    lines it prints, in the order in which they happen. *)
Inductive Event : Type :=
| CallGetProjectMetaFile (projectName : string)
| CallCreateUpdateProject (project : obs.Project)
| Printf (line : string)
| LogFatalf (line : string).

(** The lines of [fmt.Printf], the only reports of the command. *)
Fixpoint printed (evs : list Event) : list string :=
  match evs with
  | [] => []
  | Printf line :: rest => line :: printed rest
  | _ :: rest => printed rest
  end.

(** How the command line is received. [cobra] rejects a command line (an
    unknown flag, the required flag [--manifest] missing) with an error and
    runs no command; it runs the root command; or it runs [reconcile] with
    the values of the flags [--manifest] and [--api-url]. *)
Inductive Invocation : Type :=
| UsageError (err : error)
| RunRoot
| RunReconcile (manifest apiURL : string).

Section Reconcile.

(** The state of the build service, and the two operations of the client
    that the command calls: each may change the state, and returns an error
    or, for the first, the project. *)
Context {Remote : Type}.
Variable GetProjectMetaFile :
  obs.OBS -> Remote -> string -> Remote * (error + obs.Project).
Variable CreateUpdateProject :
  obs.OBS -> Remote -> obs.Project -> Remote * option error.

(** The environment and the file system of the run. *)
Variable env : gmap string string.
Variable os_Stat : string -> option error.
Variable os_ReadFile : string -> error + string.
Variable yaml_Unmarshal : string -> error + types.Projects.

Record World : Type := {
  remote : Remote;
  events : list Event
}.

(** A command: it changes the world and ends in a [result]. *)
Definition M (A : Type) : Type := World -> World * result A.

Definition M_ret {A : Type} (a : A) : M A := fun w => (w, Ok a).

Definition M_bind {A B : Type} (m : M A) (k : A -> M B) : M B := fun w =>
  match m w with
  | (w', Ok a) => k a w'
  | (w', Panic msg) => (w', Panic msg)
  | (w', Exit status) => (w', Exit status)
  end.

Definition lift {A : Type} (r : result A) : M A := fun w => (w, r).

Definition emit (e : Event) : M unit := fun w =>
  ({| remote := remote w; events := events w ++ [e] |}, Ok tt).

Definition fmt_Printf (line : string) : M unit := emit (Printf line).

Definition log_Fatalf (line : string) : M unit :=
  M_bind (emit (LogFatalf line)) (fun _ => lift (Exit 1)).

Definition os_Exit (status : Z) : M unit := lift (Exit status).

Definition call_GetProjectMetaFile (client : obs.OBS) (projectName : string)
  : M (error + obs.Project) := fun w =>
  let '(r, res) := GetProjectMetaFile client (remote w) projectName in
  ({| remote := r; events := events w ++ [CallGetProjectMetaFile projectName] |},
   Ok res).

Definition call_CreateUpdateProject (client : obs.OBS) (project : obs.Project)
  : M (option error) := fun w =>
  let '(r, res) := CreateUpdateProject client (remote w) project in
  ({| remote := r; events := events w ++ [CallCreateUpdateProject project] |},
   Ok res).

Notation "x <- m ;; k" := (M_bind m (fun x => k))
  (at level 100, m at next level, right associativity).
Notation "m ;;; k" := (M_bind m (fun _ => k))
  (at level 100, right associativity).

Record Options : Type := {
  ManifestPath : string;
  opts_OBSClient : obs.OBS
}.

Definition CheckManifestPath (o : Options) : bool :=
  match os_Stat (ManifestPath o) with
  | None => true
  | Some _ => false
  end.

Definition LoadManifest (path : string) : error + types.Projects :=
  match os_ReadFile path with
  | inl err => inl ("unable to read the manifest content: " ++ err)
  | inr bytes =>
      match yaml_Unmarshal bytes with
      | inl err => inl ("error unmarshalling yaml: " ++ err)
      | inr prjs => inr prjs
      end
  end.

(** The body of the loop over [prjs.Projects]; [continue] ends it. *)
Definition Reconcile_body (client : obs.OBS) (prj : types.Project) : M unit :=
  let name := obs.Name (types.embedded prj) in
  fetched <- call_GetProjectMetaFile client name ;;
  match fetched with
  | inl err => fmt_Printf ("error getting project from OBS: " ++ err ++ nl)
  | inr remotePrj =>
      different <- lift (compareProjects prj remotePrj) ;;
      if different : bool then
        err <- call_CreateUpdateProject client (types.embedded prj) ;;
        match err with
        | Some err =>
            fmt_Printf ("error creating/updating project on OBS: " ++ err ++ nl)
        | None => fmt_Printf ("Project " ++ name ++ " updated on OBS." ++ nl)
        end
      else fmt_Printf ("Project " ++ name ++ " is already up-to-date." ++ nl)
  end.

Fixpoint Reconcile_loop (client : obs.OBS) (prjs : list types.Project) : M unit :=
  match prjs with
  | [] => M_ret tt
  | prj :: rest => Reconcile_body client prj ;;; Reconcile_loop client rest
  end.

(** The [Run] function of the command [reconcile]. *)
Definition Reconcile_Run (manifest apiURL : string) : M unit :=
  match GetOBSCredentials env apiURL with
  | inl err => log_Fatalf ("Error getting OBS credentials: " ++ err ++ nl)
  | inr cred =>
      let opts := {| ManifestPath := manifest; opts_OBSClient := OBSClient cred |} in
      if negb (CheckManifestPath opts)
      then fmt_Printf (ManifestPath opts ++ " does not exist" ++ nl)
      else
        match LoadManifest (ManifestPath opts) with
        | inl err => fmt_Printf (err ++ nl)
        | inr prjs => Reconcile_loop (opts_OBSClient opts) (types.Projects_ prjs)
        end
  end.

(** [rootCmd.Execute()]: the commands have a [Run] function, which returns no
    error, so that the error is that of the command line. *)
Definition rootCmd_Execute (inv : Invocation) : M (option error) :=
  match inv with
  | UsageError err => M_ret (Some err)
  | RunRoot => fmt_Printf ("root command function called" ++ nl) ;;; M_ret None
  | RunReconcile manifest apiURL => Reconcile_Run manifest apiURL ;;; M_ret None
  end.

Definition Execute (inv : Invocation) : M unit :=
  err <- rootCmd_Execute inv ;;
  match err with
  | Some _ => os_Exit 1
  | None => M_ret tt
  end.

End Reconcile.

(** The exit status of a process that ends as its call of [Execute] does: 0
    when the call returns, the argument of [os.Exit], 2 after a panic. *)
Definition exit_status {A : Type} (r : result A) : Z :=
  match r with
  | Ok _ => 0
  | Exit status => status
  | Panic _ => 2
  end.

(** ** The outcomes of the specification

    The four terminal outcomes of a project, as the line that reports each and
    as the events of the iteration that ends in it. *)

Definition line_fetch_error (err : error) : string :=
  "error getting project from OBS: " ++ err ++ nl.
Definition line_upsert_error (err : error) : string :=
  "error creating/updating project on OBS: " ++ err ++ nl.
Definition line_updated (name : string) : string :=
  "Project " ++ name ++ " updated on OBS." ++ nl.
Definition line_up_to_date (name : string) : string :=
  "Project " ++ name ++ " is already up-to-date." ++ nl.

Inductive outcome_line (prj : types.Project) : string -> Prop :=
| line_FetchError (err : error) : outcome_line prj (line_fetch_error err)
| line_UpToDate : outcome_line prj (line_up_to_date (obs.Name (types.embedded prj)))
| line_Updated : outcome_line prj (line_updated (obs.Name (types.embedded prj)))
| line_UpsertError (err : error) : outcome_line prj (line_upsert_error err).

Inductive iteration (prj : types.Project) : list Event -> Prop :=
| it_FetchError (err : error) :
    iteration prj [CallGetProjectMetaFile (obs.Name (types.embedded prj));
                   Printf (line_fetch_error err)]
| it_UpToDate :
    iteration prj [CallGetProjectMetaFile (obs.Name (types.embedded prj));
                   Printf (line_up_to_date (obs.Name (types.embedded prj)))]
| it_Updated :
    iteration prj [CallGetProjectMetaFile (obs.Name (types.embedded prj));
                   CallCreateUpdateProject (types.embedded prj);
                   Printf (line_updated (obs.Name (types.embedded prj)))]
| it_UpsertError (err : error) :
    iteration prj [CallGetProjectMetaFile (obs.Name (types.embedded prj));
                   CallCreateUpdateProject (types.embedded prj);
                   Printf (line_upsert_error err)].

(** A run in which some project ended in a fetch error or an upsert error. *)
Definition ended_in_error (evs : list Event) : Prop :=
  exists err, In (line_fetch_error err) (printed evs) \/
              In (line_upsert_error err) (printed evs).

(** The names given to [GetProjectMetaFile] and the projects given to
    [CreateUpdateProject], in the order of the calls. *)
Fixpoint fetch_calls (evs : list Event) : list string :=
  match evs with
  | [] => []
  | CallGetProjectMetaFile projectName :: rest => projectName :: fetch_calls rest
  | _ :: rest => fetch_calls rest
  end.

Fixpoint upsert_calls (evs : list Event) : list obs.Project :=
  match evs with
  | [] => []
  | CallCreateUpdateProject project :: rest => project :: upsert_calls rest
  | _ :: rest => upsert_calls rest
  end.

(** A difference between a manifest project and a remote project: a scalar
    field, the number of persons or a person at some index, the number of
    repositories or, at some index, the name of the repository, the number of
    its architectures or one of its architectures. *)
Definition persons_differ (ls rs : list obs.Person) : Prop :=
  length ls <> length rs \/
  exists i l r, ls !! i = Some l /\ rs !! i = Some r /\
    (obs.UserID l <> obs.UserID r \/ obs.Role l <> obs.Role r).

Definition archs_differ (ls rs : list string) : Prop :=
  length ls <> length rs \/
  exists j a b, ls !! j = Some a /\ rs !! j = Some b /\ a <> b.

Definition repositories_differ (ls rs : list obs.Repository) : Prop :=
  length ls <> length rs \/
  exists i l r, ls !! i = Some l /\ rs !! i = Some r /\
    (obs.RepositoryName l <> obs.RepositoryName r \/
     archs_differ (obs.Architectures l) (obs.Architectures r)).

Definition projects_differ (local : types.Project) (remote : obs.Project) : Prop :=
  obs.Name (types.embedded local) <> obs.Name remote \/
  obs.Title (types.embedded local) <> obs.Title remote \/
  obs.Description (types.embedded local) <> obs.Description remote \/
  obs.URL (types.embedded local) <> obs.URL remote \/
  persons_differ (obs.Persons (types.embedded local)) (obs.Persons remote) \/
  repositories_differ (obs.Repositories (types.embedded local)) (obs.Repositories remote).

(** A service that keeps the projects by name, seen through [stored]:
    fetching does not change its state and returns the project stored under
    the name, or an error when there is none; an update succeeds, stores the
    project under its name and leaves the other names as they were. *)
Definition keeps_projects {Remote : Type}
    (GetProjectMetaFile : obs.OBS -> Remote -> string -> Remote * (error + obs.Project))
    (CreateUpdateProject : obs.OBS -> Remote -> obs.Project -> Remote * option error)
    (stored : Remote -> string -> option obs.Project) : Prop :=
  (forall client r projectName,
      fst (GetProjectMetaFile client r projectName) = r /\
      match stored r projectName with
      | Some p => snd (GetProjectMetaFile client r projectName) = inr p
      | None => exists err, snd (GetProjectMetaFile client r projectName) = inl err
      end) /\
  (forall client r project,
      snd (CreateUpdateProject client r project) = None /\
      stored (fst (CreateUpdateProject client r project)) (obs.Name project)
      = Some project /\
      forall projectName,
        projectName <> obs.Name project ->
        stored (fst (CreateUpdateProject client r project)) projectName
        = stored r projectName).

(** The state of the service when every project of the list is stored as the
    manifest has it, or not stored at all. *)
Definition settled {Remote : Type} (stored : Remote -> string -> option obs.Project)
           (prjs : list types.Project) (r : Remote) : Prop :=
  forall prj, prj ∈ prjs ->
    stored r (obs.Name (types.embedded prj)) = Some (types.embedded prj) \/
    stored r (obs.Name (types.embedded prj)) = None.

(** ** Sample data *)

Definition alice : obs.Person := {| obs.UserID := "alice"; obs.Role := "maintainer" |}.
Definition bob : obs.Person := {| obs.UserID := "bob"; obs.Role := "reviewer" |}.

Definition standard : obs.Repository :=
  {| obs.RepositoryName := "standard"; obs.Architectures := ["x86_64"] |}.
Definition standard_two_archs : obs.Repository :=
  {| obs.RepositoryName := "standard"; obs.Architectures := ["x86_64"; "aarch64"] |}.

Definition foo : obs.Project :=
  {| obs.Name := "foo"; obs.Title := "T";
     obs.Description := EmptyString; obs.URL := EmptyString;
     obs.Persons := [alice]; obs.Repositories := [standard] |}.

Definition foo_old : obs.Project :=
  {| obs.Name := "foo"; obs.Title := "Old";
     obs.Description := EmptyString; obs.URL := EmptyString;
     obs.Persons := [alice]; obs.Repositories := [standard] |}.

Definition foo_two_archs : obs.Project :=
  {| obs.Name := "foo"; obs.Title := "T";
     obs.Description := EmptyString; obs.URL := EmptyString;
     obs.Persons := [alice]; obs.Repositories := [standard_two_archs] |}.

Definition bar : obs.Project :=
  {| obs.Name := "bar"; obs.Title := "B";
     obs.Description := "a project"; obs.URL := "https://example.org/bar";
     obs.Persons := [alice; bob]; obs.Repositories := [standard] |}.

Definition bar_reordered : obs.Project :=
  {| obs.Name := "bar"; obs.Title := "B";
     obs.Description := "a project"; obs.URL := "https://example.org/bar";
     obs.Persons := [bob; alice]; obs.Repositories := [standard] |}.

Definition manifest_of (p : obs.Project) : types.Project := {| types.embedded := p |}.

(** A build service that keeps the projects by name: a project that is not
    stored is not found, and an update stores the project. *)
Definition store_GetProjectMetaFile (client : obs.OBS) (r : gmap string obs.Project)
           (projectName : string) : gmap string obs.Project * (error + obs.Project) :=
  (r, match r !! projectName with
      | Some p => inr p
      | None => inl "project not found"
      end).

Definition store_CreateUpdateProject (client : obs.OBS) (r : gmap string obs.Project)
           (project : obs.Project) : gmap string obs.Project * option error :=
  (<[obs.Name project := project]> r, None).

(** A build service that rejects every update. *)
Definition readonly_CreateUpdateProject (client : obs.OBS) (r : gmap string obs.Project)
           (project : obs.Project) : gmap string obs.Project * option error :=
  (r, Some "permission denied").

Definition sample_env : gmap string string :=
  <["OBS_USERNAME" := "user"]> (<["OBS_PASSWORD" := "secret"]> ∅).

Definition sample_client : obs.OBS :=
  obs.New {| obs.Username := "user"; obs.Password := "secret";
             obs.APIURL := DefaultAPIURL |}.

Definition sample_Stat (path : string) : option error :=
  if bool_decide (path = "manifest.yaml") then None else Some "no such file or directory".

Definition sample_ReadFile (path : string) : error + string :=
  if bool_decide (path = "manifest.yaml") then inr "projects: (foo, bar)"
  else inl "no such file or directory".

Definition sample_Unmarshal (bytes : string) : error + types.Projects :=
  inr {| types.Projects_ := [manifest_of foo; manifest_of bar] |}.

(** The service stores [bar] with its persons in the other order, and no
    [foo]. *)
Definition sample_remote : gmap string obs.Project := {[ "bar" := bar_reordered ]}.

(** The service stores [bar] as the manifest has it, and no [foo]. *)
Definition synced_remote : gmap string obs.Project := {[ "bar" := bar ]}.

Definition after_foo_not_found : World :=
  {| remote := synced_remote;
     events := [CallGetProjectMetaFile "foo";
                Printf (line_fetch_error "project not found")] |}.

Definition env_no_password : gmap string string := {[ "OBS_USERNAME" := "user" ]}.

Definition sample_cred : Info :=
  {| Username := "user"; Password := "secret"; APIURL := DefaultAPIURL;
     OBSClient := sample_client |}.

Definition unreadable_ReadFile (path : string) : error + string :=
  inl "permission denied".

Definition store_stored (r : gmap string obs.Project) (projectName : string)
  : option obs.Project := r !! projectName.

Definition after_foo_missing : World :=
  {| remote := sample_remote;
     events := [CallGetProjectMetaFile "foo";
                Printf (line_fetch_error "project not found")] |}.

Definition start {Remote : Type} (r : Remote) : World :=
  {| remote := r; events := [] |}.

(** * Properties of the comparison *)

Section Comparison.

Lemma index_lookup {A : Type} (xs : list A) (i : nat) (x : A) :
  xs !! i = Some x -> index xs i = Ok x.
Proof. intros H. unfold index. by rewrite H. Qed.

Example comparePersons_reordered :
  comparePersons [alice; bob] [bob; alice] = Ok false.
Proof. reflexivity. Qed.


(** Under the length guard the index of the loop is always in range. *)
Lemma in_range {A B : Type} (l : A) (ls : list A) (rs : list B) (i : nat) :
  length rs = i + length (l :: ls) ->
  exists r, rs !! i = Some r /\ drop i rs = r :: drop (S i) rs /\
            length rs = S i + length ls.
Proof.
  intros Hlen. simpl in Hlen.
  destruct (lookup_lt_is_Some_2 rs i) as [r Hr]; [lia|].
  exists r. split; [done|]. split; [by apply drop_S | lia].
Qed.

Lemma bool_decide_Forall2_cons {A B : Type} (P : A -> B -> Prop)
      `{!RelDecision P} (x : A) (y : B) (xs : list A) (ys : list B) :
  bool_decide (Forall2 P (x :: xs) (y :: ys))
  = bool_decide (P x y) && bool_decide (Forall2 P xs ys).
Proof.
  rewrite <- bool_decide_and. apply bool_decide_ext.
  split.
  - intros H. by apply Forall2_cons_1 in H.
  - intros [H1 H2]. by constructor.
Qed.

Lemma bool_decide_person_eq (l r : obs.Person) :
  bool_decide (person_eq l r)
  = bool_decide (obs.UserID l = obs.UserID r) && bool_decide (obs.Role l = obs.Role r).
Proof. rewrite <- bool_decide_and. by apply bool_decide_ext. Qed.

Lemma bool_decide_repository_eq (l r : obs.Repository) :
  bool_decide (repository_eq l r)
  = bool_decide (obs.RepositoryName l = obs.RepositoryName r)
    && bool_decide (Forall2 eq (obs.Architectures l) (obs.Architectures r)).
Proof. rewrite <- bool_decide_and. by apply bool_decide_ext. Qed.

Lemma bool_decide_project_eq (l r : obs.Project) :
  bool_decide (project_eq l r)
  = bool_decide (obs.Name l = obs.Name r)
    && (bool_decide (obs.Title l = obs.Title r)
    && (bool_decide (obs.Description l = obs.Description r)
    && (bool_decide (obs.URL l = obs.URL r)
    && (bool_decide (Forall2 person_eq (obs.Persons l) (obs.Persons r))
    && bool_decide (Forall2 repository_eq (obs.Repositories l) (obs.Repositories r)))))).
Proof. rewrite <- !bool_decide_and. by apply bool_decide_ext. Qed.

Lemma comparePersons_loop_spec (ls rs : list obs.Person) (i : nat) :
  length rs = i + length ls ->
  comparePersons_loop i ls rs = Ok (bool_decide (Forall2 person_eq ls (drop i rs))).
Proof.
  revert i. induction ls as [|l ls IH]; intros i Hlen.
  - simpl in *. rewrite drop_ge by lia. by rewrite bool_decide_eq_true_2.
  - destruct (in_range l ls rs i Hlen) as (r & Hr & Hdrop & Hlen').
    cbn [comparePersons_loop]. rewrite (index_lookup _ _ _ Hr). cbn [mbind result_bind].
    rewrite Hdrop, bool_decide_Forall2_cons, IH by done.
    rewrite bool_decide_person_eq, !bool_decide_not.
    by destruct (bool_decide (obs.UserID l = obs.UserID r)),
                (bool_decide (obs.Role l = obs.Role r)).
Qed.

Lemma comparePersons_spec (ls rs : list obs.Person) :
  comparePersons ls rs = Ok (bool_decide (Forall2 person_eq ls rs)).
Proof.
  unfold comparePersons. case_bool_decide as Hlen.
  - rewrite bool_decide_eq_false_2; [done|].
    intros H. by apply Forall2_length in H.
  - rewrite comparePersons_loop_spec by (simpl; lia). by rewrite drop_0.
Qed.

Lemma compareArchitectures_loop_spec (ls rs : list string) (i : nat) :
  length rs = i + length ls ->
  compareArchitectures_loop i ls rs = Ok (bool_decide (Forall2 eq ls (drop i rs))).
Proof.
  revert i. induction ls as [|l ls IH]; intros i Hlen.
  - simpl in *. rewrite drop_ge by lia. by rewrite bool_decide_eq_true_2.
  - destruct (in_range l ls rs i Hlen) as (r & Hr & Hdrop & Hlen').
    cbn [compareArchitectures_loop]. rewrite (index_lookup _ _ _ Hr).
    cbn [mbind result_bind].
    rewrite Hdrop, bool_decide_Forall2_cons, IH by done.
    rewrite bool_decide_not.
    by destruct (bool_decide (l = r)).
Qed.

Lemma compareArchitectures_spec (ls rs : list string) :
  compareArchitectures ls rs = Ok (bool_decide (Forall2 eq ls rs)).
Proof.
  unfold compareArchitectures. case_bool_decide as Hlen.
  - rewrite bool_decide_eq_false_2; [done|].
    intros H. by apply Forall2_length in H.
  - rewrite compareArchitectures_loop_spec by (simpl; lia). by rewrite drop_0.
Qed.

Lemma compareRepositories_loop_spec (ls rs : list obs.Repository) (i : nat) :
  length rs = i + length ls ->
  compareRepositories_loop i ls rs
  = Ok (bool_decide (Forall2 repository_eq ls (drop i rs))).
Proof.
  revert i. induction ls as [|l ls IH]; intros i Hlen.
  - simpl in *. rewrite drop_ge by lia. by rewrite bool_decide_eq_true_2.
  - destruct (in_range l ls rs i Hlen) as (r & Hr & Hdrop & Hlen').
    cbn [compareRepositories_loop]. rewrite (index_lookup _ _ _ Hr).
    cbn [mbind result_bind].
    rewrite compareArchitectures_spec. cbn [mbind result_bind].
    rewrite Hdrop, bool_decide_Forall2_cons, IH by done.
    rewrite bool_decide_repository_eq, bool_decide_not.
    by destruct (bool_decide (obs.RepositoryName l = obs.RepositoryName r)),
                (bool_decide (Forall2 eq (obs.Architectures l) (obs.Architectures r))).
Qed.

Lemma compareRepositories_spec (ls rs : list obs.Repository) :
  compareRepositories ls rs = Ok (bool_decide (Forall2 repository_eq ls rs)).
Proof.
  unfold compareRepositories. case_bool_decide as Hlen.
  - rewrite bool_decide_eq_false_2; [done|].
    intros H. by apply Forall2_length in H.
  - rewrite compareRepositories_loop_spec by (simpl; lia). by rewrite drop_0.
Qed.

(** [compareProjects] never panics, and answers [different]. *)
Lemma compareProjects_spec (local : types.Project) (remote : obs.Project) :
  compareProjects local remote
  = Ok (negb (bool_decide (project_eq (types.embedded local) remote))).
Proof.
  unfold compareProjects.
  rewrite comparePersons_spec, compareRepositories_spec.
  cbn [mbind result_bind].
  rewrite bool_decide_project_eq, !bool_decide_not.
  by repeat match goal with
     | |- context [bool_decide ?P] => destruct (bool_decide P); cbn
     end.
Qed.

(** *** The decidable relations are those of the specification *)

Lemma archs_positionally_equal_Forall2 (ls rs : list string) :
  archs_positionally_equal ls rs <-> Forall2 eq ls rs.
Proof. unfold archs_positionally_equal. by rewrite Forall2_same_length_lookup. Qed.

Lemma persons_positionally_equal_Forall2 (ls rs : list obs.Person) :
  persons_positionally_equal ls rs <-> Forall2 person_eq ls rs.
Proof. unfold persons_positionally_equal. by rewrite Forall2_same_length_lookup. Qed.

Lemma repositories_positionally_equal_Forall2 (ls rs : list obs.Repository) :
  repositories_positionally_equal ls rs <-> Forall2 repository_eq ls rs.
Proof.
  unfold repositories_positionally_equal, repository_eq.
  rewrite Forall2_same_length_lookup.
  split; intros [Hlen H]; (split; [done|]); intros i l r Hl Hr;
    destruct (H i l r Hl Hr) as [Hname Harchs]; (split; [done|]);
    by apply archs_positionally_equal_Forall2.
Qed.

Lemma equivalent_project_eq (local : types.Project) (remote : obs.Project) :
  equivalent local remote <-> project_eq (types.embedded local) remote.
Proof.
  unfold equivalent, project_eq.
  by rewrite persons_positionally_equal_Forall2,
             repositories_positionally_equal_Forall2.
Qed.

(** The records have the compared fields only: the relations are equality. *)
Lemma person_eq_eq (l r : obs.Person) : person_eq l r <-> l = r.
Proof.
  destruct l, r. unfold person_eq. simpl. split.
  - by intros [-> ->].
  - by intros [= -> ->].
Qed.

Lemma repository_eq_eq (l r : obs.Repository) : repository_eq l r <-> l = r.
Proof.
  destruct l, r. unfold repository_eq. simpl.
  rewrite <- list_eq_Forall2. split.
  - by intros [-> ->].
  - by intros [= -> ->].
Qed.

Lemma Forall2_eq_iff {A : Type} (P : A -> A -> Prop) (ls rs : list A) :
  (forall l r, P l r <-> l = r) -> Forall2 P ls rs <-> ls = rs.
Proof.
  intros HP. rewrite list_eq_Forall2.
  split; intros H; (eapply Forall2_impl; [exact H|]); intros l r; by rewrite HP.
Qed.

Lemma project_eq_eq (l r : obs.Project) : project_eq l r <-> l = r.
Proof.
  unfold project_eq.
  rewrite (Forall2_eq_iff _ _ _ person_eq_eq), (Forall2_eq_iff _ _ _ repository_eq_eq).
  destruct l, r. simpl. split.
  - by intros (-> & -> & -> & -> & -> & ->).
  - by intros [= -> -> -> -> -> ->].
Qed.

Lemma compareProjects_false (local : types.Project) (remote : obs.Project) :
  compareProjects local remote = Ok false <-> project_eq (types.embedded local) remote.
Proof.
  rewrite compareProjects_spec. case_bool_decide; simpl; naive_solver.
Qed.

Lemma compareProjects_true (local : types.Project) (remote : obs.Project) :
  compareProjects local remote = Ok true <-> ~ project_eq (types.embedded local) remote.
Proof.
  rewrite compareProjects_spec. case_bool_decide; simpl; naive_solver.
Qed.

Lemma compareProjects_returns (local : types.Project) (remote : obs.Project) :
  exists different, compareProjects local remote = Ok different.
Proof. rewrite compareProjects_spec. eauto. Qed.

(** C1: [compareProjects] always returns, and it reports "not different"
    exactly when the two projects are equivalent in the sense of the
    specification: equal names, titles, descriptions and URLs, person lists
    of equal length that agree on [(user_id, role)] at every index, and
    repository lists of equal length that agree at every index on the
    repository name and on architecture lists of equal length, themselves
    equal at every index. *)
Theorem compareProjects_equivalent (local : types.Project) (remote : obs.Project) :
  (exists different, compareProjects local remote = Ok different) /\
  (compareProjects local remote = Ok false <-> equivalent local remote).
Proof.
  split.
  - apply compareProjects_returns.
  - by rewrite compareProjects_false, equivalent_project_eq.
Qed.

(** C2: when the person lists, the repository lists, or the architecture
    lists of the repositories at some common index have different lengths,
    [compareProjects] returns [different == true], whatever the lists
    contain. *)
Theorem length_mismatch_different (local : types.Project) (remote : obs.Project) :
  length (obs.Persons (types.embedded local)) <> length (obs.Persons remote) \/
  length (obs.Repositories (types.embedded local)) <> length (obs.Repositories remote) \/
  (exists i lr rr,
      obs.Repositories (types.embedded local) !! i = Some lr /\
      obs.Repositories remote !! i = Some rr /\
      length (obs.Architectures lr) <> length (obs.Architectures rr)) ->
  compareProjects local remote = Ok true.
Proof.
  intros Hlen. apply compareProjects_true.
  intros (_ & _ & _ & _ & Hpersons & Hrepos).
  destruct Hlen as [Hlen | [Hlen | (i & lr & rr & Hl & Hr & Hlen)]].
  - by apply Forall2_length in Hpersons.
  - by apply Forall2_length in Hrepos.
  - destruct (Forall2_lookup_lr _ _ _ _ _ _ Hrepos Hl Hr) as [_ Harchs].
    by apply Forall2_length in Harchs.
Qed.

(** C3: two projects that are identical except that the person list (or the
    repository list) of one is a reordering of that of the other, with a
    different element at some position, are reported different; so are the
    persons alice, bob against bob, alice of the specification. *)
Theorem reordering_different (local : types.Project) (remote : obs.Project) :
  obs.Name (types.embedded local) = obs.Name remote ->
  obs.Title (types.embedded local) = obs.Title remote ->
  obs.Description (types.embedded local) = obs.Description remote ->
  obs.URL (types.embedded local) = obs.URL remote ->
  (obs.Repositories (types.embedded local) = obs.Repositories remote /\
   obs.Persons (types.embedded local) ≡ₚ obs.Persons remote /\
   exists i, obs.Persons (types.embedded local) !! i <> obs.Persons remote !! i) \/
  (obs.Persons (types.embedded local) = obs.Persons remote /\
   obs.Repositories (types.embedded local) ≡ₚ obs.Repositories remote /\
   exists i, obs.Repositories (types.embedded local) !! i
             <> obs.Repositories remote !! i) ->
  compareProjects local remote = Ok true.
Proof.
  intros _ _ _ _ H. apply compareProjects_true.
  intros (_ & _ & _ & _ & Hpersons & Hrepos).
  apply (Forall2_eq_iff _ _ _ person_eq_eq) in Hpersons.
  apply (Forall2_eq_iff _ _ _ repository_eq_eq) in Hrepos.
  destruct H as [(_ & _ & i & Hi) | (_ & _ & i & Hi)]; apply Hi; congruence.
Qed.

(** C4: a project compared with a remote state that has the same fields is
    reported "not different". *)
Theorem compareProjects_reflexive (p : types.Project) :
  compareProjects p (types.embedded p) = Ok false.
Proof. by apply compareProjects_false, project_eq_eq. Qed.

(** C9: the comparison is symmetric: exchanging the local and the remote
    project does not change the answer. *)
Theorem compareProjects_symmetric (a b : obs.Project) :
  compareProjects {| types.embedded := a |} b
  = compareProjects {| types.embedded := b |} a.
Proof.
  rewrite !compareProjects_spec. simpl. do 2 f_equal.
  apply bool_decide_ext. rewrite !project_eq_eq. split; congruence.
Qed.

End Comparison.

(** * Properties of the reconcile command *)

Section ReconcileProperties.

Context {Remote : Type}.
Variable GetProjectMetaFile :
  obs.OBS -> Remote -> string -> Remote * (error + obs.Project).
Variable CreateUpdateProject :
  obs.OBS -> Remote -> obs.Project -> Remote * option error.
Variable env : gmap string string.
Variable os_Stat : string -> option error.
Variable os_ReadFile : string -> error + string.
Variable yaml_Unmarshal : string -> error + types.Projects.

Local Abbreviation body := (Reconcile_body GetProjectMetaFile CreateUpdateProject).
Local Abbreviation loop := (Reconcile_loop GetProjectMetaFile CreateUpdateProject).
Local Abbreviation Run :=
  (Reconcile_Run GetProjectMetaFile CreateUpdateProject env os_Stat os_ReadFile
                 yaml_Unmarshal).
Local Abbreviation Exec :=
  (Execute GetProjectMetaFile CreateUpdateProject env os_Stat os_ReadFile
           yaml_Unmarshal).

Ltac unfold_M :=
  unfold Reconcile_body, M_bind, M_ret, call_GetProjectMetaFile,
    call_CreateUpdateProject, fmt_Printf, log_Fatalf, os_Exit, emit, lift;
  cbn [remote events fst snd].

(** *** One iteration *)

Lemma body_fetch_error (client : obs.OBS) (prj : types.Project) (w : World)
      (r : Remote) (err : error) :
  GetProjectMetaFile client (remote w) (obs.Name (types.embedded prj)) = (r, inl err) ->
  body client prj w
  = ({| remote := r;
        events := events w ++ [CallGetProjectMetaFile (obs.Name (types.embedded prj));
                               Printf (line_fetch_error err)] |}, Ok tt).
Proof.
  intros Hfetch. unfold_M. rewrite Hfetch. cbn [remote events].
  by rewrite <- app_assoc.
Qed.

Lemma body_up_to_date (client : obs.OBS) (prj : types.Project) (w : World)
      (r : Remote) (remotePrj : obs.Project) :
  GetProjectMetaFile client (remote w) (obs.Name (types.embedded prj))
  = (r, inr remotePrj) ->
  compareProjects prj remotePrj = Ok false ->
  body client prj w
  = ({| remote := r;
        events := events w ++ [CallGetProjectMetaFile (obs.Name (types.embedded prj));
                               Printf (line_up_to_date (obs.Name (types.embedded prj)))] |},
     Ok tt).
Proof.
  intros Hfetch Hsame. unfold_M. rewrite Hfetch, Hsame. cbn [remote events].
  by rewrite <- app_assoc.
Qed.

Lemma body_different (client : obs.OBS) (prj : types.Project) (w : World)
      (r r' : Remote) (remotePrj : obs.Project) (res : option error) :
  GetProjectMetaFile client (remote w) (obs.Name (types.embedded prj))
  = (r, inr remotePrj) ->
  compareProjects prj remotePrj = Ok true ->
  CreateUpdateProject client r (types.embedded prj) = (r', res) ->
  body client prj w
  = ({| remote := r';
        events := events w ++ [CallGetProjectMetaFile (obs.Name (types.embedded prj));
                               CallCreateUpdateProject (types.embedded prj);
                               Printf (match res with
                                       | Some err => line_upsert_error err
                                       | None => line_updated (obs.Name (types.embedded prj))
                                       end)] |},
     Ok tt).
Proof.
  intros Hfetch Hdiff Hupsert. unfold_M. rewrite Hfetch, Hdiff. cbn [remote events].
  rewrite Hupsert. destruct res; cbn [remote events]; by rewrite <- !app_assoc.
Qed.

(** An iteration always ends, in one of the four outcomes. *)
Lemma body_iteration (client : obs.OBS) (prj : types.Project) (w : World) :
  exists w' seg,
    body client prj w = (w', Ok tt) /\
    events w' = (events w ++ seg)%list /\
    iteration prj seg.
Proof.
  destruct (GetProjectMetaFile client (remote w) (obs.Name (types.embedded prj)))
    as [r [err|remotePrj]] eqn:Hfetch.
  - eexists _, _. split; [by apply body_fetch_error|]. split; [done|]. constructor.
  - destruct (compareProjects_returns prj remotePrj) as [[|] Hcmp].
    + destruct (CreateUpdateProject client r (types.embedded prj)) as [r' res] eqn:Hup.
      eexists _, _. split; [by eapply body_different|]. split; [done|].
      destruct res; constructor.
    + eexists _, _. split; [by eapply body_up_to_date|]. split; [done|]. constructor.
Qed.

(** *** The loop *)

Lemma loop_cons (client : obs.OBS) (prj : types.Project) (rest : list types.Project)
      (w w' : World) :
  body client prj w = (w', Ok tt) ->
  loop client (prj :: rest) w = loop client rest w'.
Proof. intros H. cbn [Reconcile_loop]. unfold M_bind. by rewrite H. Qed.

Lemma loop_app (client : obs.OBS) (pre post : list types.Project) (w0 w1 : World) :
  loop client pre w0 = (w1, Ok tt) ->
  loop client (pre ++ post) w0 = loop client post w1.
Proof.
  revert w0. induction pre as [|prj pre IH]; intros w0 Hpre.
  - cbn in Hpre. by injection Hpre as ->.
  - destruct (body_iteration client prj w0) as (w' & seg & Hbody & _ & _).
    rewrite (loop_cons _ _ _ _ _ Hbody) in Hpre.
    rewrite <- app_comm_cons, (loop_cons _ _ _ _ _ Hbody). by apply IH.
Qed.

(** The loop always ends, and its events are one iteration per project, in
    the order of the manifest. *)
Lemma loop_iterations (client : obs.OBS) (prjs : list types.Project) (w : World) :
  exists w' segs,
    loop client prjs w = (w', Ok tt) /\
    events w' = (events w ++ concat segs)%list /\
    Forall2 iteration prjs segs.
Proof.
  revert w. induction prjs as [|prj prjs IH]; intros w.
  - exists w, []. cbn. by rewrite app_nil_r.
  - destruct (body_iteration client prj w) as (w1 & seg & Hbody & Hev1 & Hit).
    destruct (IH w1) as (w' & segs & Hloop & Hev & Hits).
    exists w', (seg :: segs). split; [by rewrite (loop_cons _ _ _ _ _ Hbody)|].
    split; [|by constructor].
    rewrite Hev, Hev1. cbn [concat]. by rewrite app_assoc.
Qed.

Lemma printed_app (evs evs' : list Event) :
  printed (evs ++ evs') = (printed evs ++ printed evs')%list.
Proof.
  induction evs as [|[] evs IH]; cbn [printed app]; by rewrite ?IH.
Qed.

Lemma iteration_printed (prj : types.Project) (seg : list Event) :
  iteration prj seg -> exists line, printed seg = [line] /\ outcome_line prj line.
Proof. intros []; eexists; (split; [reflexivity|]); constructor. Qed.

Lemma iterations_printed (prjs : list types.Project) (segs : list (list Event)) :
  Forall2 iteration prjs segs -> Forall2 outcome_line prjs (printed (concat segs)).
Proof.
  induction 1 as [|prj seg prjs segs Hit _ IH]; [constructor|].
  cbn [concat]. rewrite printed_app.
  destruct (iteration_printed _ _ Hit) as (line & -> & Hline).
  by constructor.
Qed.

(** C5: a project of the manifest whose fetch succeeds with a remote state
    that [compareProjects] reports "not different" adds to the run the call of
    the fetch and the line "already up-to-date", and nothing else: the loop
    goes on to the next project with the state of the service that the fetch
    returned, without a call of [CreateUpdateProject]. *)
Theorem up_to_date_no_upsert (client : obs.OBS) (pre post : list types.Project)
        (prj : types.Project) (w0 w1 : World) (r : Remote) (remotePrj : obs.Project) :
  loop client pre w0 = (w1, Ok tt) ->
  GetProjectMetaFile client (remote w1) (obs.Name (types.embedded prj))
  = (r, inr remotePrj) ->
  compareProjects prj remotePrj = Ok false ->
  loop client (pre ++ prj :: post) w0
  = loop client post
      {| remote := r;
         events := events w1
                   ++ [CallGetProjectMetaFile (obs.Name (types.embedded prj));
                       Printf (line_up_to_date (obs.Name (types.embedded prj)))] |}.
Proof.
  intros Hpre Hfetch Hsame.
  rewrite (loop_app _ _ _ _ _ Hpre).
  apply loop_cons. by eapply body_up_to_date.
Qed.


Lemma Run_loaded (manifest apiURL : string) (cred : Info) (prjs : types.Projects) :
  GetOBSCredentials env apiURL = inr cred ->
  CheckManifestPath os_Stat {| ManifestPath := manifest;
                               opts_OBSClient := OBSClient cred |} = true ->
  LoadManifest os_ReadFile yaml_Unmarshal manifest = inr prjs ->
  Run manifest apiURL = loop (OBSClient cred) (types.Projects_ prjs).
Proof.
  intros Hcred Hstat Hload. unfold Reconcile_Run.
  rewrite Hcred. cbn [ManifestPath opts_OBSClient]. by rewrite Hstat, Hload.
Qed.

(** C8: when the manifest loads, the run ends and prints one line for each
    project of the manifest, in the order of the manifest, which is one of
    the four reports of that project; and the events of the run are one
    iteration after the other, so that the line of a project is printed
    before the next project is fetched. *)
Theorem one_line_per_project (manifest apiURL : string) (cred : Info)
        (prjs : types.Projects) (w : World) :
  GetOBSCredentials env apiURL = inr cred ->
  CheckManifestPath os_Stat {| ManifestPath := manifest;
                               opts_OBSClient := OBSClient cred |} = true ->
  LoadManifest os_ReadFile yaml_Unmarshal manifest = inr prjs ->
  exists w' lines segs,
    Run manifest apiURL w = (w', Ok tt) /\
    printed (events w') = (printed (events w) ++ lines)%list /\
    Forall2 outcome_line (types.Projects_ prjs) lines /\
    events w' = (events w ++ concat segs)%list /\
    Forall2 iteration (types.Projects_ prjs) segs.
Proof.
  intros Hcred Hstat Hload.
  rewrite (Run_loaded _ _ _ _ Hcred Hstat Hload).
  destruct (loop_iterations (OBSClient cred) (types.Projects_ prjs) w)
    as (w' & segs & Hloop & Hev & Hits).
  exists w', (printed (concat segs)), segs.
  split; [done|]. split; [by rewrite Hev, printed_app|].
  split; [by apply iterations_printed|]. done.
Qed.

(** The [Run] function returns unless the credentials are missing. *)
Lemma Run_returns (manifest apiURL : string) (cred : Info) (w : World) :
  GetOBSCredentials env apiURL = inr cred ->
  exists w', Run manifest apiURL w = (w', Ok tt).
Proof.
  intros Hcred. unfold Reconcile_Run. rewrite Hcred.
  destruct (negb _); [by eexists|].
  destruct (LoadManifest _ _ _) as [err|prjs]; [by eexists|].
  destruct (loop_iterations (OBSClient cred) (types.Projects_ prjs) w)
    as (w' & segs & Hloop & _). by exists w'.
Qed.

(** C7, as the code has it: in every run of [reconcile] in which a project
    ends in a fetch error or an upsert error, the exit status is 0, as
    [Execute] returns without a call of [os.Exit]: the errors of the projects
    are printed and nothing else.  Every project of the manifest still has
    its iteration, so that the updates of the other projects are applied. *)
Theorem exit_status_zero_despite_errors (manifest apiURL : string) (cred : Info)
        (prjs : types.Projects) (r : Remote) :
  GetOBSCredentials env apiURL = inr cred ->
  CheckManifestPath os_Stat {| ManifestPath := manifest;
                               opts_OBSClient := OBSClient cred |} = true ->
  LoadManifest os_ReadFile yaml_Unmarshal manifest = inr prjs ->
  ended_in_error (events (fst (Exec (RunReconcile manifest apiURL) (start r)))) ->
  exit_status (snd (Exec (RunReconcile manifest apiURL) (start r))) = 0%Z /\
  exists segs,
    events (fst (Exec (RunReconcile manifest apiURL) (start r))) = concat segs /\
    Forall2 iteration (types.Projects_ prjs) segs.
Proof.
  intros Hcred Hstat Hload _.
  destruct (loop_iterations (OBSClient cred) (types.Projects_ prjs) (start r))
    as (w' & segs & Hloop & Hev & Hits).
  assert (Exec (RunReconcile manifest apiURL) (start r) = (w', Ok tt)) as ->.
  { unfold Execute, rootCmd_Execute, M_bind at 1 2.
    by rewrite (Run_loaded _ _ _ _ Hcred Hstat Hload), Hloop. }
  split; [done|]. by exists segs.
Qed.

End ReconcileProperties.

(** * Properties of the credentials *)

Lemma os_Getenv_insert_empty (env : gmap string string) (key k : string) :
  os_Getenv (<[key := EmptyString]> env) k = os_Getenv (delete key env) k.
Proof.
  unfold os_Getenv. destruct (decide (key = k)) as [->|Hne].
  - by rewrite lookup_insert_eq, lookup_delete_eq.
  - by rewrite lookup_insert_ne, lookup_delete_ne.
Qed.

(** C10: [GetOBSCredentials] returns an error exactly when [OBS_USERNAME] or
    [OBS_PASSWORD] has the empty value; a variable that is set to the empty
    string gives the same result as a variable that is not set; and when
    both are not empty the [Info] carries the two values and the API URL. *)
Theorem GetOBSCredentials_error_iff (env : gmap string string) (apiURL : string) :
  ((exists err, GetOBSCredentials env apiURL = inl err) <->
   os_Getenv env "OBS_USERNAME" = EmptyString \/
   os_Getenv env "OBS_PASSWORD" = EmptyString) /\
  (forall key,
      GetOBSCredentials (<[key := EmptyString]> env) apiURL
      = GetOBSCredentials (delete key env) apiURL) /\
  (os_Getenv env "OBS_USERNAME" <> EmptyString ->
   os_Getenv env "OBS_PASSWORD" <> EmptyString ->
   exists info,
     GetOBSCredentials env apiURL = inr info /\
     Username info = os_Getenv env "OBS_USERNAME" /\
     Password info = os_Getenv env "OBS_PASSWORD" /\
     APIURL info = apiURL).
Proof.
  split; [|split].
  - unfold GetOBSCredentials.
    destruct (decide (os_Getenv env "OBS_USERNAME" = EmptyString)) as [Hu|Hu].
    + rewrite (bool_decide_eq_true_2 _ Hu). split; eauto.
    + rewrite (bool_decide_eq_false_2 _ Hu).
      destruct (decide (os_Getenv env "OBS_PASSWORD" = EmptyString)) as [Hp|Hp].
      * rewrite (bool_decide_eq_true_2 _ Hp). split; eauto.
      * rewrite (bool_decide_eq_false_2 _ Hp). split.
        -- by intros [err [=]].
        -- by intros [|].
  - intros key. unfold GetOBSCredentials. by rewrite !os_Getenv_insert_empty.
  - intros Hu Hp. unfold GetOBSCredentials.
    rewrite !bool_decide_eq_false_2 by done. by eexists.
Qed.

(** * The properties on the sample data *)

(** The service has no [foo] and another order of the persons of [bar]: the
    first is a fetch error, the second is updated. *)
Example sample_run :
  printed (events (fst (Execute store_GetProjectMetaFile store_CreateUpdateProject
                                sample_env sample_Stat sample_ReadFile sample_Unmarshal
                                (RunReconcile "manifest.yaml" DefaultAPIURL)
                                (start sample_remote))))
  = [line_fetch_error "project not found"; line_updated "bar"].
Proof. vm_compute. reflexivity. Qed.

Lemma length_mismatch_different_witness :
  obs.Repositories foo !! 0 = Some standard /\
  obs.Repositories foo_two_archs !! 0 = Some standard_two_archs /\
  length (obs.Architectures standard) <> length (obs.Architectures standard_two_archs) /\
  compareProjects (manifest_of foo) foo_two_archs = Ok true.
Proof.
  assert (length (obs.Architectures standard)
          <> length (obs.Architectures standard_two_archs)) as Hlen
    by (simpl; lia).
  split; [reflexivity|]. split; [reflexivity|]. split; [exact Hlen|].
  apply (length_mismatch_different (manifest_of foo) foo_two_archs).
  right; right. exists 0, standard, standard_two_archs.
  split; [reflexivity|]. split; [reflexivity|]. exact Hlen.
Defined.

Lemma reordering_different_witness :
  obs.Persons bar ≡ₚ obs.Persons bar_reordered /\
  obs.Persons bar !! 0 <> obs.Persons bar_reordered !! 0 /\
  compareProjects (manifest_of bar) bar_reordered = Ok true.
Proof.
  assert (obs.Persons bar ≡ₚ obs.Persons bar_reordered) as Hperm
    by (simpl; apply perm_swap).
  assert (obs.Persons bar !! 0 <> obs.Persons bar_reordered !! 0) as Hpos
    by (vm_compute; intros [=]).
  split; [exact Hperm|]. split; [exact Hpos|].
  apply (reordering_different (manifest_of bar) bar_reordered); try reflexivity.
  left. split; [reflexivity|]. split; [exact Hperm|]. exists 0. exact Hpos.
Defined.

Lemma up_to_date_no_upsert_witness :
  Reconcile_loop store_GetProjectMetaFile store_CreateUpdateProject sample_client
                 [manifest_of foo] (start synced_remote)
  = (after_foo_not_found, Ok tt) /\
  store_GetProjectMetaFile sample_client synced_remote "bar" = (synced_remote, inr bar) /\
  compareProjects (manifest_of bar) bar = Ok false /\
  Reconcile_loop store_GetProjectMetaFile store_CreateUpdateProject sample_client
                 ([manifest_of foo] ++ manifest_of bar :: [manifest_of foo])
                 (start synced_remote)
  = Reconcile_loop store_GetProjectMetaFile store_CreateUpdateProject sample_client
                   [manifest_of foo]
                   {| remote := synced_remote;
                      events := events after_foo_not_found
                                ++ [CallGetProjectMetaFile "bar";
                                    Printf (line_up_to_date "bar")] |}.
Proof.
  assert (Reconcile_loop store_GetProjectMetaFile store_CreateUpdateProject sample_client
                         [manifest_of foo] (start synced_remote)
          = (after_foo_not_found, Ok tt)) as Hpre by (vm_compute; reflexivity).
  assert (store_GetProjectMetaFile sample_client (remote after_foo_not_found)
                                   (obs.Name (types.embedded (manifest_of bar)))
          = (synced_remote, inr bar)) as Hfetch by (vm_compute; reflexivity).
  assert (compareProjects (manifest_of bar) bar = Ok false) as Hsame
    by (vm_compute; reflexivity).
  split; [exact Hpre|]. split; [exact Hfetch|]. split; [exact Hsame|].
  exact (up_to_date_no_upsert store_GetProjectMetaFile store_CreateUpdateProject
           sample_client [manifest_of foo] [manifest_of foo] (manifest_of bar)
           (start synced_remote) after_foo_not_found synced_remote bar
           Hpre Hfetch Hsame).
Defined.


Lemma one_line_per_project_witness :
  exists w' lines segs,
    Reconcile_Run store_GetProjectMetaFile store_CreateUpdateProject sample_env
                  sample_Stat sample_ReadFile sample_Unmarshal
                  "manifest.yaml" DefaultAPIURL (start sample_remote)
    = (w', Ok tt) /\
    printed (events w') = (printed (events (start sample_remote)) ++ lines)%list /\
    Forall2 outcome_line [manifest_of foo; manifest_of bar] lines /\
    events w' = (events (start sample_remote) ++ concat segs)%list /\
    Forall2 iteration [manifest_of foo; manifest_of bar] segs.
Proof.
  apply (one_line_per_project store_GetProjectMetaFile store_CreateUpdateProject
           sample_env sample_Stat sample_ReadFile sample_Unmarshal
           "manifest.yaml" DefaultAPIURL
           {| Username := "user"; Password := "secret"; APIURL := DefaultAPIURL;
              OBSClient := sample_client |}
           {| types.Projects_ := [manifest_of foo; manifest_of bar] |}
           (start sample_remote));
    vm_compute; reflexivity.
Defined.

Lemma GetOBSCredentials_error_iff_witness :
  os_Getenv sample_env "OBS_USERNAME" <> EmptyString /\
  os_Getenv sample_env "OBS_PASSWORD" <> EmptyString /\
  exists info,
    GetOBSCredentials sample_env DefaultAPIURL = inr info /\
    Username info = os_Getenv sample_env "OBS_USERNAME" /\
    Password info = os_Getenv sample_env "OBS_PASSWORD" /\
    APIURL info = DefaultAPIURL.
Proof.
  assert (os_Getenv sample_env "OBS_USERNAME" <> EmptyString) as Hu
    by (vm_compute; intros [=]).
  assert (os_Getenv sample_env "OBS_PASSWORD" <> EmptyString) as Hp
    by (vm_compute; intros [=]).
  split; [exact Hu|]. split; [exact Hp|].
  exact (proj2 (proj2 (GetOBSCredentials_error_iff sample_env DefaultAPIURL)) Hu Hp).
Defined.

Lemma exit_status_zero_despite_errors_witness :
  ended_in_error
    (events (fst (Execute store_GetProjectMetaFile store_CreateUpdateProject
                          sample_env sample_Stat sample_ReadFile sample_Unmarshal
                          (RunReconcile "manifest.yaml" DefaultAPIURL)
                          (start sample_remote)))) /\
  exit_status
    (snd (Execute store_GetProjectMetaFile store_CreateUpdateProject
                  sample_env sample_Stat sample_ReadFile sample_Unmarshal
                  (RunReconcile "manifest.yaml" DefaultAPIURL)
                  (start sample_remote))) = 0%Z /\
  exists segs,
    events (fst (Execute store_GetProjectMetaFile store_CreateUpdateProject
                         sample_env sample_Stat sample_ReadFile sample_Unmarshal
                         (RunReconcile "manifest.yaml" DefaultAPIURL)
                         (start sample_remote))) = concat segs /\
    Forall2 iteration [manifest_of foo; manifest_of bar] segs.
Proof.
  assert (ended_in_error
            (events (fst (Execute store_GetProjectMetaFile store_CreateUpdateProject
                                  sample_env sample_Stat sample_ReadFile sample_Unmarshal
                                  (RunReconcile "manifest.yaml" DefaultAPIURL)
                                  (start sample_remote))))) as Herr.
  { exists "project not found". left. vm_compute. left. reflexivity. }
  split; [exact Herr|].
  apply (exit_status_zero_despite_errors store_GetProjectMetaFile
           store_CreateUpdateProject sample_env sample_Stat sample_ReadFile
           sample_Unmarshal "manifest.yaml" DefaultAPIURL
           {| Username := "user"; Password := "secret"; APIURL := DefaultAPIURL;
              OBSClient := sample_client |}
           {| types.Projects_ := [manifest_of foo; manifest_of bar] |}
           sample_remote).
  - vm_compute. reflexivity.
  - vm_compute. reflexivity.
  - vm_compute. reflexivity.
  - exact Herr.
Defined.

(** C7 as the specification states it fails: in the sample run the project
    [foo] ends in a fetch error, and the exit status is 0. *)
Lemma exit_status_zero_after_fetch_error :
  ~ (ended_in_error
       (events (fst (Execute store_GetProjectMetaFile store_CreateUpdateProject
                             sample_env sample_Stat sample_ReadFile sample_Unmarshal
                             (RunReconcile "manifest.yaml" DefaultAPIURL)
                             (start sample_remote)))) ->
     exit_status
       (snd (Execute store_GetProjectMetaFile store_CreateUpdateProject
                     sample_env sample_Stat sample_ReadFile sample_Unmarshal
                     (RunReconcile "manifest.yaml" DefaultAPIURL)
                     (start sample_remote))) <> 0%Z).
Proof.
  intros H. apply H.
  - exists "project not found". left. vm_compute. left. reflexivity.
  - vm_compute. reflexivity.
Qed.

(** * More on the comparison *)

Section ComparisonFunctions.

Lemma not_Forall2_lookup {A B : Type} (P : A -> B -> Prop) `{!RelDecision P}
      (ls : list A) (rs : list B) :
  ~ Forall2 P ls rs ->
  length ls <> length rs \/
  exists i l r, ls !! i = Some l /\ rs !! i = Some r /\ ~ P l r.
Proof.
  revert rs. induction ls as [|l ls IH]; intros [|r rs] Hnot.
  - destruct Hnot. constructor.
  - by left.
  - by left.
  - destruct (decide (P l r)) as [Hlr|Hlr].
    + destruct (IH rs) as [Hlen|(i & x & y & Hx & Hy & Hxy)].
      * intros Hrest. apply Hnot. by constructor.
      * left. simpl. lia.
      * right. by exists (S i), x, y.
    + right. by exists 0, l, r.
Qed.

Lemma Forall2_lookup_differ {A B : Type} (P : A -> B -> Prop)
      (ls : list A) (rs : list B) :
  (length ls <> length rs \/
   exists i l r, ls !! i = Some l /\ rs !! i = Some r /\ ~ P l r) ->
  ~ Forall2 P ls rs.
Proof.
  intros [Hlen|(i & l & r & Hl & Hr & Hlr)] Hall.
  - by apply Forall2_length in Hall.
  - by apply Hlr, (Forall2_lookup_lr _ _ _ _ _ _ Hall Hl Hr).
Qed.

Lemma archs_differ_Forall2 (ls rs : list string) :
  archs_differ ls rs <-> ~ Forall2 eq ls rs.
Proof.
  unfold archs_differ. split.
  - apply Forall2_lookup_differ.
  - apply not_Forall2_lookup; apply _.
Qed.

Lemma persons_differ_Forall2 (ls rs : list obs.Person) :
  persons_differ ls rs <-> ~ Forall2 person_eq ls rs.
Proof.
  unfold persons_differ. split.
  - intros [Hlen|(i & l & r & Hl & Hr & Hlr)]; apply Forall2_lookup_differ;
      [by left|right].
    exists i, l, r. split; [done|]. split; [done|].
    intros [Hu Hrole]. by destruct Hlr.
  - intros Hnot. apply not_Forall2_lookup in Hnot; [|apply _].
    destruct Hnot as [Hlen|(i & l & r & Hl & Hr & Hlr)]; [by left|right].
    exists i, l, r. split; [done|]. split; [done|].
    destruct (decide (obs.UserID l = obs.UserID r)); [|by left].
    destruct (decide (obs.Role l = obs.Role r)); [|by right].
    by destruct Hlr.
Qed.

Lemma repositories_differ_Forall2 (ls rs : list obs.Repository) :
  repositories_differ ls rs <-> ~ Forall2 repository_eq ls rs.
Proof.
  unfold repositories_differ. split.
  - intros [Hlen|(i & l & r & Hl & Hr & Hlr)]; apply Forall2_lookup_differ;
      [by left|right].
    exists i, l, r. split; [done|]. split; [done|].
    intros [Hname Harchs]. destruct Hlr as [Hlr|Hlr]; [done|].
    by apply archs_differ_Forall2 in Hlr.
  - intros Hnot. apply not_Forall2_lookup in Hnot; [|apply _].
    destruct Hnot as [Hlen|(i & l & r & Hl & Hr & Hlr)]; [by left|right].
    exists i, l, r. split; [done|]. split; [done|].
    destruct (decide (obs.RepositoryName l = obs.RepositoryName r)); [|by left].
    right. apply archs_differ_Forall2. intros Harchs. by apply Hlr.
Qed.

(** X1: [compareArchitectures] never reads outside of the remote list, and
    answers whether the two lists of architectures are the same list. *)
Theorem compareArchitectures_eq (localArchs remoteArchs : list string) :
  compareArchitectures localArchs remoteArchs
  = Ok (bool_decide (localArchs = remoteArchs)).
Proof.
  rewrite compareArchitectures_spec. f_equal.
  apply bool_decide_ext. by rewrite <- list_eq_Forall2.
Qed.

(** X2: [comparePersons] never reads outside of the remote list; it returns
    [true] when the lists have the same length and the same user and role at
    every index, and [false] when they differ in length or at some index. *)
Theorem comparePersons_positional (localPersons remotePersons : list obs.Person) :
  (comparePersons localPersons remotePersons = Ok true <->
   persons_positionally_equal localPersons remotePersons) /\
  (comparePersons localPersons remotePersons = Ok false <->
   persons_differ localPersons remotePersons).
Proof.
  rewrite comparePersons_spec, persons_positionally_equal_Forall2,
    persons_differ_Forall2.
  case_bool_decide; naive_solver.
Qed.

(** X3: [compareRepositories] never reads outside of the remote list; it
    returns [true] when the lists have the same length and, at every index,
    the same repository name and the same architectures, and [false] when
    they differ in length or at some index. *)
Theorem compareRepositories_positional (localRepos remoteRepos : list obs.Repository) :
  (compareRepositories localRepos remoteRepos = Ok true <->
   repositories_positionally_equal localRepos remoteRepos) /\
  (compareRepositories localRepos remoteRepos = Ok false <->
   repositories_differ localRepos remoteRepos).
Proof.
  rewrite compareRepositories_spec, repositories_positionally_equal_Forall2,
    repositories_differ_Forall2.
  case_bool_decide; naive_solver.
Qed.

(** X4: "not different" is transitive: when [a] is not different from [b]
    and [b] is not different from [c], [a] is not different from [c]. *)
Theorem compareProjects_transitive (a b c : obs.Project) :
  compareProjects {| types.embedded := a |} b = Ok false ->
  compareProjects {| types.embedded := b |} c = Ok false ->
  compareProjects {| types.embedded := a |} c = Ok false.
Proof.
  rewrite !compareProjects_false. cbn [types.embedded].
  unfold project_eq.
  intros (Hn & Ht & Hd & Hu & Hp & Hr) (Hn' & Ht' & Hd' & Hu' & Hp' & Hr').
  repeat split; try congruence.
  - eapply Forall2_trans; [|exact Hp|exact Hp'].
    unfold person_eq. intros x y z [] []. split; congruence.
  - eapply Forall2_trans; [|exact Hr|exact Hr'].
    unfold repository_eq. intros x y z [? Hxy] [? Hyz]. split; [congruence|].
    apply list_eq_Forall2. apply list_eq_Forall2 in Hxy, Hyz. congruence.
Qed.

(** X5: [compareProjects] reports a difference only when there is one, and
    every difference is reported: it returns [true] exactly when a scalar
    field differs, the persons differ in number or at some index, or the
    repositories differ in number or at some index (in the name, in the
    number of architectures or in an architecture). *)
Theorem compareProjects_true_iff_differ (local : types.Project) (remote : obs.Project) :
  compareProjects local remote = Ok true <-> projects_differ local remote.
Proof.
  rewrite compareProjects_true. unfold projects_differ, project_eq.
  rewrite persons_differ_Forall2, repositories_differ_Forall2.
  split.
  - intros Hnot.
    destruct (decide (obs.Name (types.embedded local) = obs.Name remote)); [|by left].
    right.
    destruct (decide (obs.Title (types.embedded local) = obs.Title remote)); [|by left].
    right.
    destruct (decide (obs.Description (types.embedded local) = obs.Description remote));
      [|by left].
    right.
    destruct (decide (obs.URL (types.embedded local) = obs.URL remote)); [|by left].
    right.
    destruct (decide (Forall2 person_eq (obs.Persons (types.embedded local))
                              (obs.Persons remote))); [|by left].
    right. intros Hrepos. by apply Hnot.
  - intros H (Hn & Ht & Hd & Hu & Hp & Hr).
    destruct H as [H|[H|[H|[H|[H|H]]]]]; by apply H.
Qed.

End ComparisonFunctions.

(** * More on the reconcile command *)

Section ReconcileCalls.

Context {Remote : Type}.
Variable GetProjectMetaFile :
  obs.OBS -> Remote -> string -> Remote * (error + obs.Project).
Variable CreateUpdateProject :
  obs.OBS -> Remote -> obs.Project -> Remote * option error.
Variable env : gmap string string.
Variable os_Stat : string -> option error.
Variable os_ReadFile : string -> error + string.
Variable yaml_Unmarshal : string -> error + types.Projects.

Local Abbreviation body := (Reconcile_body GetProjectMetaFile CreateUpdateProject).
Local Abbreviation loop := (Reconcile_loop GetProjectMetaFile CreateUpdateProject).
Local Abbreviation Exec :=
  (Execute GetProjectMetaFile CreateUpdateProject env os_Stat os_ReadFile
           yaml_Unmarshal).

Lemma fetch_calls_app (evs evs' : list Event) :
  fetch_calls (evs ++ evs') = (fetch_calls evs ++ fetch_calls evs')%list.
Proof. induction evs as [|[] evs IH]; cbn [fetch_calls app]; by rewrite ?IH. Qed.

Lemma upsert_calls_app (evs evs' : list Event) :
  upsert_calls (evs ++ evs') = (upsert_calls evs ++ upsert_calls evs')%list.
Proof. induction evs as [|[] evs IH]; cbn [upsert_calls app]; by rewrite ?IH. Qed.

Lemma iterations_fetch_calls (prjs : list types.Project) (segs : list (list Event)) :
  Forall2 iteration prjs segs ->
  fetch_calls (concat segs) = map (fun prj => obs.Name (types.embedded prj)) prjs.
Proof.
  induction 1 as [|prj seg prjs segs Hit _ IH]; [done|].
  cbn [concat map]. rewrite fetch_calls_app, IH. by destruct Hit.
Qed.

Lemma iterations_upsert_calls (prjs : list types.Project) (segs : list (list Event)) :
  Forall2 iteration prjs segs ->
  sublist (upsert_calls (concat segs)) (map types.embedded prjs).
Proof.
  induction 1 as [|prj seg prjs segs Hit _ IH]; [constructor|].
  cbn [concat map]. rewrite upsert_calls_app.
  destruct Hit; cbn [upsert_calls app]; by constructor.
Qed.

(** X6: a project of the manifest whose fetch succeeds with a remote state
    that [compareProjects] reports different is written once, with the whole
    project of the manifest: the iteration is the fetch, one call of
    [CreateUpdateProject] and one line, "updated" when the call succeeds and
    the error of the call when it fails.  In both cases the loop goes on to
    the next project, with the state of the service that the call left. *)
Theorem different_one_upsert (client : obs.OBS) (pre post : list types.Project)
        (prj : types.Project) (w0 w1 : World) (r r' : Remote)
        (remotePrj : obs.Project) (res : option error) :
  loop client pre w0 = (w1, Ok tt) ->
  GetProjectMetaFile client (remote w1) (obs.Name (types.embedded prj))
  = (r, inr remotePrj) ->
  compareProjects prj remotePrj = Ok true ->
  CreateUpdateProject client r (types.embedded prj) = (r', res) ->
  loop client (pre ++ prj :: post) w0
  = loop client post
      {| remote := r';
         events := events w1
                   ++ [CallGetProjectMetaFile (obs.Name (types.embedded prj));
                       CallCreateUpdateProject (types.embedded prj);
                       Printf (match res with
                               | Some err => line_upsert_error err
                               | None => line_updated (obs.Name (types.embedded prj))
                               end)] |}.
Proof.
  intros Hpre Hfetch Hdiff Hupsert.
  rewrite (loop_app _ _ _ _ _ _ _ Hpre).
  apply loop_cons. by eapply body_different.
Qed.

(** X7: the loop fetches every project of the manifest once, by its name, in
    the order of the manifest, whatever the outcomes of the projects. *)
Theorem one_fetch_per_project (client : obs.OBS) (prjs : list types.Project)
        (w : World) :
  fetch_calls (events (fst (loop client prjs w)))
  = (fetch_calls (events w)
     ++ map (fun prj => obs.Name (types.embedded prj)) prjs)%list.
Proof.
  destruct (loop_iterations GetProjectMetaFile CreateUpdateProject client prjs w)
    as (w' & segs & -> & Hev & Hits).
  cbn [fst]. by rewrite Hev, fetch_calls_app, (iterations_fetch_calls _ _ Hits).
Qed.

(** X8: the loop writes nothing but projects of the manifest, each at most
    once and in the order of the manifest: the projects given to
    [CreateUpdateProject] are a sublist of the projects of the manifest. *)
Theorem upserts_from_manifest (client : obs.OBS) (prjs : list types.Project)
        (w : World) :
  exists ups,
    upsert_calls (events (fst (loop client prjs w)))
    = (upsert_calls (events w) ++ ups)%list /\
    sublist ups (map types.embedded prjs).
Proof.
  destruct (loop_iterations GetProjectMetaFile CreateUpdateProject client prjs w)
    as (w' & segs & -> & Hev & Hits).
  exists (upsert_calls (concat segs)). cbn [fst].
  split; [by rewrite Hev, upsert_calls_app|by apply iterations_upsert_calls].
Qed.

Lemma loop_upsert_calls_length (client : obs.OBS) (prjs : list types.Project)
      (w : World) :
  length (upsert_calls (events w))
  <= length (upsert_calls (events (fst (loop client prjs w)))).
Proof.
  destruct (loop_iterations GetProjectMetaFile CreateUpdateProject client prjs w)
    as (w' & segs & -> & Hev & _).
  cbn [fst]. rewrite Hev, upsert_calls_app, length_app. lia.
Qed.

(** X9: when fetching does not change the state of the service, a run of the
    loop without a call of [CreateUpdateProject] leaves the state of the
    service as it was. *)
Theorem no_upsert_no_change (client : obs.OBS) (prjs : list types.Project)
        (w : World) :
  (forall c r projectName, fst (GetProjectMetaFile c r projectName) = r) ->
  upsert_calls (events (fst (loop client prjs w))) = upsert_calls (events w) ->
  remote (fst (loop client prjs w)) = remote w.
Proof.
  intros Hro. revert w. induction prjs as [|prj prjs IH]; intros w Hnone; [done|].
  pose proof (Hro client (remote w) (obs.Name (types.embedded prj))) as Hr.
  destruct (GetProjectMetaFile client (remote w) (obs.Name (types.embedded prj)))
    as [r [err|remotePrj]] eqn:Hfetch; cbn [fst] in Hr; subst r.
  - pose proof (body_fetch_error _ CreateUpdateProject _ _ _ _ _ Hfetch) as Hbody.
    rewrite (loop_cons _ _ _ _ prjs _ _ Hbody) in Hnone |- *.
    rewrite IH; [done|]. rewrite Hnone. cbn [events].
    rewrite upsert_calls_app. cbn. by rewrite app_nil_r.
  - destruct (compareProjects_returns prj remotePrj) as [[|] Hcmp].
    + destruct (CreateUpdateProject client (remote w) (types.embedded prj))
        as [r' res] eqn:Hup.
      pose proof (body_different _ _ _ _ _ _ _ _ _ Hfetch Hcmp Hup) as Hbody.
      rewrite (loop_cons _ _ _ _ prjs _ _ Hbody) in Hnone.
      match type of Hnone with
      | upsert_calls (events (fst (loop _ _ ?w1))) = _ =>
          pose proof (loop_upsert_calls_length client prjs w1) as Hlen
      end.
      rewrite Hnone in Hlen. cbn [events] in Hlen.
      rewrite upsert_calls_app, length_app in Hlen. cbn in Hlen. lia.
    + pose proof (body_up_to_date _ CreateUpdateProject _ _ _ _ _ Hfetch Hcmp) as Hbody.
      rewrite (loop_cons _ _ _ _ prjs _ _ Hbody) in Hnone |- *.
      rewrite IH; [done|]. rewrite Hnone. cbn [events].
      rewrite upsert_calls_app. cbn. by rewrite app_nil_r.
Qed.

End ReconcileCalls.

(** * The configuration of a run *)

Section Configuration.

Context {Remote : Type}.
Variable GetProjectMetaFile :
  obs.OBS -> Remote -> string -> Remote * (error + obs.Project).
Variable CreateUpdateProject :
  obs.OBS -> Remote -> obs.Project -> Remote * option error.
Variable env : gmap string string.
Variable os_Stat : string -> option error.
Variable os_ReadFile : string -> error + string.
Variable yaml_Unmarshal : string -> error + types.Projects.

Local Abbreviation Exec :=
  (Execute GetProjectMetaFile CreateUpdateProject env os_Stat os_ReadFile
           yaml_Unmarshal).

Ltac run_Execute :=
  unfold Execute, rootCmd_Execute, Reconcile_Run, CheckManifestPath, LoadManifest,
    M_bind, M_ret, fmt_Printf, log_Fatalf, os_Exit, emit, lift;
  cbn [ManifestPath opts_OBSClient negb remote events fst snd].

Lemma GetOBSCredentials_inl (apiURL : string) :
  os_Getenv env "OBS_USERNAME" = EmptyString \/
  os_Getenv env "OBS_PASSWORD" = EmptyString ->
  exists err, GetOBSCredentials env apiURL = inl err.
Proof.
  intros H. unfold GetOBSCredentials.
  case_bool_decide as Hu; [by eexists|].
  case_bool_decide as Hp; [by eexists|].
  by destruct H.
Qed.

(** X10: when a credential is missing, [reconcile] logs one fatal line with
    the error of [GetOBSCredentials] and ends the process with status 1; it
    prints nothing, calls the service for no project, and does so whatever
    the manifest is. *)
Theorem missing_credential_fatal (manifest apiURL : string) (w : World) :
  os_Getenv env "OBS_USERNAME" = EmptyString \/
  os_Getenv env "OBS_PASSWORD" = EmptyString ->
  exists err,
    GetOBSCredentials env apiURL = inl err /\
    Exec (RunReconcile manifest apiURL) w
    = ({| remote := remote w;
          events := events w
                    ++ [LogFatalf ("Error getting OBS credentials: " ++ err ++ nl)] |},
       Exit 1).
Proof.
  intros H. destruct (GetOBSCredentials_inl apiURL H) as [err Herr].
  exists err. split; [done|]. run_Execute. by rewrite Herr.
Qed.

(** X11: with the credentials set, a manifest path that [os.Stat] rejects is
    reported by the one line "does not exist"; the file is not loaded, the
    service is not called, and the command returns, so that the process ends
    with status 0. *)
Theorem missing_manifest_reported (manifest apiURL : string) (cred : Info)
        (err : error) (w : World) :
  GetOBSCredentials env apiURL = inr cred ->
  os_Stat manifest = Some err ->
  Exec (RunReconcile manifest apiURL) w
  = ({| remote := remote w;
        events := events w ++ [Printf (manifest ++ " does not exist" ++ nl)] |},
     Ok tt).
Proof. intros Hcred Hstat. run_Execute. by rewrite Hcred, Hstat. Qed.

(** X12: with the credentials set and the path accepted, a manifest that
    cannot be read or cannot be parsed is reported by one line, the error
    under the prefix of the step that failed; no project is reconciled: the
    service is not called, and the command returns. *)
Theorem unloadable_manifest_reported (manifest apiURL : string) (cred : Info)
        (err : error) (w : World) :
  GetOBSCredentials env apiURL = inr cred ->
  os_Stat manifest = None ->
  forall line,
    (os_ReadFile manifest = inl err /\
     line = "unable to read the manifest content: " ++ err) \/
    (exists bytes, os_ReadFile manifest = inr bytes /\
                   yaml_Unmarshal bytes = inl err /\
                   line = "error unmarshalling yaml: " ++ err) ->
    Exec (RunReconcile manifest apiURL) w
    = ({| remote := remote w; events := events w ++ [Printf (line ++ nl)] |}, Ok tt).
Proof.
  intros Hcred Hstat line [[Hread ->]|(bytes & Hread & Hparse & ->)];
    run_Execute; rewrite Hcred, Hstat, Hread; cbn [negb]; [done|].
  by rewrite Hparse.
Qed.

Lemma quiet_Printf (w : @World Remote) (line : string) :
  ~ (fetch_calls (events w ++ [Printf line]) <> fetch_calls (events w) \/
     upsert_calls (events w ++ [Printf line]) <> upsert_calls (events w) \/
     remote w <> remote w).
Proof.
  rewrite fetch_calls_app, upsert_calls_app. cbn. rewrite !app_nil_r.
  by intros [H|[H|H]].
Qed.

Lemma quiet_LogFatalf (w : @World Remote) (line : string) :
  ~ (fetch_calls (events w ++ [LogFatalf line]) <> fetch_calls (events w) \/
     upsert_calls (events w ++ [LogFatalf line]) <> upsert_calls (events w) \/
     remote w <> remote w).
Proof.
  rewrite fetch_calls_app, upsert_calls_app. cbn. rewrite !app_nil_r.
  by intros [H|[H|H]].
Qed.

(** X13: the service is called, and its state can change, only in a run of
    [reconcile] with both credentials set, a manifest path that [os.Stat]
    accepts and a manifest that loads with at least one project. *)
Theorem service_called_only_when_loaded (inv : Invocation) (w : World) :
  fetch_calls (events (fst (Exec inv w))) <> fetch_calls (events w) \/
  upsert_calls (events (fst (Exec inv w))) <> upsert_calls (events w) \/
  remote (fst (Exec inv w)) <> remote w ->
  exists manifest apiURL cred prjs,
    inv = RunReconcile manifest apiURL /\
    GetOBSCredentials env apiURL = inr cred /\
    os_Stat manifest = None /\
    LoadManifest os_ReadFile yaml_Unmarshal manifest = inr prjs /\
    types.Projects_ prjs <> [].
Proof.
  destruct inv as [err| |manifest apiURL].
  - intros [H|[H|H]]; by destruct H.
  - intros H. exfalso. revert H. run_Execute. exact (quiet_Printf _ _).
  - destruct (GetOBSCredentials env apiURL) as [err|cred] eqn:Hcred.
    { intros H. exfalso. revert H. run_Execute. rewrite Hcred.
      exact (quiet_LogFatalf _ _). }
    destruct (os_Stat manifest) as [err|] eqn:Hstat.
    { intros H. exfalso. revert H. run_Execute. rewrite Hcred, Hstat.
      exact (quiet_Printf _ _). }
    destruct (LoadManifest os_ReadFile yaml_Unmarshal manifest) as [err|prjs] eqn:Hload.
    { intros H. exfalso. revert H.
      unfold Execute, rootCmd_Execute, Reconcile_Run, CheckManifestPath, M_bind at 1 2.
      cbn [ManifestPath opts_OBSClient]. rewrite Hcred, Hstat. cbn [negb].
      rewrite Hload. unfold fmt_Printf, emit, M_ret. cbn [fst remote events].
      exact (quiet_Printf _ _). }
    intros H. exists manifest, apiURL, cred, prjs.
    repeat (split; [done|]). intros Hnil. revert H.
    unfold Execute, rootCmd_Execute, Reconcile_Run, CheckManifestPath, M_bind at 1 2.
    cbn [ManifestPath opts_OBSClient]. rewrite Hcred, Hstat. cbn [negb].
    rewrite Hload, Hnil. cbn. intros [H|[H|H]]; by destruct H.
Qed.

End Configuration.

(** * More on the credentials *)

(** X14: the error of [GetOBSCredentials] names the variable that is
    missing, and [OBS_USERNAME] first: when it is unset or empty the error
    names it, whatever [OBS_PASSWORD] is; the error names [OBS_PASSWORD] when
    only that one is unset or empty. *)
Theorem GetOBSCredentials_error_message (env : gmap string string) (apiURL : string) :
  (env !! "OBS_USERNAME" = None \/ env !! "OBS_USERNAME" = Some EmptyString ->
   GetOBSCredentials env apiURL = inl "OBS_USERNAME environment variable not set") /\
  (forall username,
      env !! "OBS_USERNAME" = Some username -> username <> EmptyString ->
      env !! "OBS_PASSWORD" = None \/ env !! "OBS_PASSWORD" = Some EmptyString ->
      GetOBSCredentials env apiURL = inl "OBS_PASSWORD environment variable not set").
Proof.
  split.
  - intros H. unfold GetOBSCredentials, os_Getenv.
    by destruct H as [-> | ->].
  - intros username Hu Hne Hp. unfold GetOBSCredentials, os_Getenv.
    rewrite Hu. cbn [default]. rewrite (bool_decide_eq_false_2 _ Hne).
    by destruct Hp as [-> | ->].
Qed.

(** X15: [GetOBSCredentials] reads the two credential variables only:
    setting or removing any other variable does not change its result. *)
Theorem GetOBSCredentials_other_variables (env : gmap string string)
        (apiURL key value : string) :
  key <> "OBS_USERNAME" -> key <> "OBS_PASSWORD" ->
  GetOBSCredentials (<[key := value]> env) apiURL = GetOBSCredentials env apiURL /\
  GetOBSCredentials (delete key env) apiURL = GetOBSCredentials env apiURL.
Proof.
  intros Hu Hp. unfold GetOBSCredentials, os_Getenv.
  by rewrite !lookup_insert_ne, !lookup_delete_ne.
Qed.

(** * Running the command again *)

Section Convergence.

Context {Remote : Type}.
Variable GetProjectMetaFile :
  obs.OBS -> Remote -> string -> Remote * (error + obs.Project).
Variable CreateUpdateProject :
  obs.OBS -> Remote -> obs.Project -> Remote * option error.
Variable stored : Remote -> string -> option obs.Project.
Hypothesis Hkeeps : keeps_projects GetProjectMetaFile CreateUpdateProject stored.

Local Abbreviation loop := (Reconcile_loop GetProjectMetaFile CreateUpdateProject).
Local Abbreviation name_of := (fun prj : types.Project => obs.Name (types.embedded prj)).

Lemma fetch_keeps (client : obs.OBS) (r : Remote) (projectName : string) :
  exists res,
    GetProjectMetaFile client r projectName = (r, res) /\
    match stored r projectName with
    | Some p => res = inr p
    | None => exists err, res = inl err
    end.
Proof.
  destruct Hkeeps as [Hfetch _]. destruct (Hfetch client r projectName) as [Hr Hres].
  destruct (GetProjectMetaFile client r projectName) as [r' res].
  cbn [fst snd] in *. subst r'. by exists res.
Qed.

(** One iteration on such a service. *)
Lemma body_keeps (client : obs.OBS) (prj : types.Project) (w : World) :
  exists w',
    Reconcile_body GetProjectMetaFile CreateUpdateProject client prj w = (w', Ok tt) /\
    (stored (remote w') (name_of prj) = Some (types.embedded prj) \/
     stored (remote w') (name_of prj) = None) /\
    (forall projectName, projectName <> name_of prj ->
                         stored (remote w') projectName = stored (remote w) projectName) /\
    (stored (remote w) (name_of prj) = Some (types.embedded prj) \/
     stored (remote w) (name_of prj) = None ->
     remote w' = remote w /\ upsert_calls (events w') = upsert_calls (events w)).
Proof.
  destruct (fetch_keeps client (remote w) (name_of prj)) as (res & Hfetch & Hres).
  destruct (stored (remote w) (name_of prj)) as [p|] eqn:Hstored.
  - subst res.
    destruct (compareProjects_returns prj p) as [[|] Hcmp].
    + destruct Hkeeps as [_ Hupsert].
      destruct (Hupsert client (remote w) (types.embedded prj)) as (Hnone & Hnew & Hother).
      destruct (CreateUpdateProject client (remote w) (types.embedded prj))
        as [r' res] eqn:Hup. cbn [fst snd] in *. subst res.
      eexists. split; [by eapply body_different|]. cbn [remote events].
      split; [by left|]. split; [done|].
      intros [[= Heq]|[=]]. subst p.
      apply compareProjects_true in Hcmp. destruct Hcmp. by apply project_eq_eq.
    + eexists. split; [by eapply body_up_to_date|]. cbn [remote events].
      apply compareProjects_false, project_eq_eq in Hcmp. subst p.
      split; [by left|]. split; [done|]. intros _. split; [done|].
      rewrite upsert_calls_app. cbn. by rewrite app_nil_r.
  - destruct Hres as [err ->].
    eexists. split; [by eapply body_fetch_error|]. cbn [remote events].
    split; [by right|]. split; [done|]. intros _. split; [done|].
    rewrite upsert_calls_app. cbn. by rewrite app_nil_r.
Qed.

(** After a run over a manifest without two projects of the same name, the
    service is settled for the manifest. *)
Lemma loop_settles (client : obs.OBS) (prjs : list types.Project) (w : World) :
  NoDup (map name_of prjs) ->
  settled stored prjs (remote (fst (loop client prjs w))) /\
  forall projectName,
    projectName ∉ map name_of prjs ->
    stored (remote (fst (loop client prjs w))) projectName
    = stored (remote w) projectName.
Proof.
  revert w. induction prjs as [|prj prjs IH]; intros w Hnodup.
  - split; [|done]. intros prj Hin. by apply elem_of_nil in Hin.
  - apply NoDup_cons in Hnodup as [Hfresh Hnodup].
    destruct (body_keeps client prj w) as (w1 & Hbody & Hprj & Hother & _).
    rewrite (loop_cons _ _ _ _ prjs _ _ Hbody).
    destruct (IH w1 Hnodup) as [Hsettled Hrest].
    split.
    + intros p Hin. apply elem_of_cons in Hin as [->|Hin]; [|by apply Hsettled].
      by rewrite (Hrest _ Hfresh).
    + intros n Hn. cbn [map] in Hn. apply not_elem_of_cons in Hn as [Hne Hn].
      by rewrite (Hrest _ Hn), (Hother _ Hne).
Qed.

(** On a settled service a run writes nothing. *)
Lemma loop_settled (client : obs.OBS) (prjs : list types.Project) (w : World) :
  settled stored prjs (remote w) ->
  remote (fst (loop client prjs w)) = remote w /\
  upsert_calls (events (fst (loop client prjs w))) = upsert_calls (events w).
Proof.
  revert w. induction prjs as [|prj prjs IH]; intros w Hsettled; [done|].
  destruct (body_keeps client prj w) as (w1 & Hbody & _ & _ & Hsame).
  destruct Hsame as [Hr Hups]; [apply Hsettled; by left|].
  rewrite (loop_cons _ _ _ _ prjs _ _ Hbody).
  destruct (IH w1) as [Hr' Hups'].
  - intros p Hin. rewrite Hr. apply Hsettled. by right.
  - by rewrite Hr', Hups', Hr, Hups.
Qed.

(** X16: on a service that keeps the projects it is given, a second run over
    the same manifest, in which no two projects have the same name, writes
    nothing: it makes no call of [CreateUpdateProject] and leaves the state
    of the service as the first run left it. *)
Theorem second_run_no_upsert (client : obs.OBS) (prjs : list types.Project)
        (w : World) :
  NoDup (map (fun prj => obs.Name (types.embedded prj)) prjs) ->
  upsert_calls
    (events (fst (loop client prjs (start (remote (fst (loop client prjs w)))))))
  = [] /\
  remote (fst (loop client prjs (start (remote (fst (loop client prjs w))))))
  = remote (fst (loop client prjs w)).
Proof.
  intros Hnodup.
  destruct (loop_settles client prjs w Hnodup) as [Hsettled _].
  destruct (loop_settled client prjs (start (remote (fst (loop client prjs w)))))
    as [Hr Hups]; [done|].
  by rewrite Hr, Hups.
Qed.

End Convergence.

(** * The further properties on the sample data *)

Lemma compareProjects_transitive_witness :
  compareProjects (manifest_of bar) bar = Ok false /\
  compareProjects (manifest_of bar) bar = Ok false.
Proof.
  assert (compareProjects {| types.embedded := bar |} bar = Ok false) as H
    by (vm_compute; reflexivity).
  split; [exact H|].
  exact (compareProjects_transitive bar bar bar H H).
Defined.

Lemma different_one_upsert_witness :
  Reconcile_loop store_GetProjectMetaFile store_CreateUpdateProject sample_client
                 [manifest_of foo] (start sample_remote)
  = (after_foo_missing, Ok tt) /\
  compareProjects (manifest_of bar) bar_reordered = Ok true /\
  Reconcile_loop store_GetProjectMetaFile store_CreateUpdateProject sample_client
                 ([manifest_of foo] ++ manifest_of bar :: []) (start sample_remote)
  = Reconcile_loop store_GetProjectMetaFile store_CreateUpdateProject sample_client []
      {| remote := <["bar" := bar]> sample_remote;
         events := events after_foo_missing
                   ++ [CallGetProjectMetaFile "bar";
                       CallCreateUpdateProject bar;
                       Printf (line_updated "bar")] |}.
Proof.
  assert (Reconcile_loop store_GetProjectMetaFile store_CreateUpdateProject sample_client
                         [manifest_of foo] (start sample_remote)
          = (after_foo_missing, Ok tt)) as Hpre by (vm_compute; reflexivity).
  assert (store_GetProjectMetaFile sample_client (remote after_foo_missing)
                                   (obs.Name (types.embedded (manifest_of bar)))
          = (sample_remote, inr bar_reordered)) as Hfetch by (vm_compute; reflexivity).
  assert (compareProjects (manifest_of bar) bar_reordered = Ok true) as Hdiff
    by (vm_compute; reflexivity).
  assert (store_CreateUpdateProject sample_client sample_remote
                                    (types.embedded (manifest_of bar))
          = (<["bar" := bar]> sample_remote, None)) as Hupsert by reflexivity.
  split; [exact Hpre|]. split; [exact Hdiff|].
  exact (different_one_upsert store_GetProjectMetaFile store_CreateUpdateProject
           sample_client [manifest_of foo] [] (manifest_of bar)
           (start sample_remote) after_foo_missing sample_remote
           (<["bar" := bar]> sample_remote) bar_reordered None
           Hpre Hfetch Hdiff Hupsert).
Defined.

Lemma no_upsert_no_change_witness :
  upsert_calls
    (events (fst (Reconcile_loop store_GetProjectMetaFile store_CreateUpdateProject
                                 sample_client [manifest_of foo; manifest_of bar]
                                 (start synced_remote))))
  = upsert_calls (events (start synced_remote)) /\
  remote (fst (Reconcile_loop store_GetProjectMetaFile store_CreateUpdateProject
                              sample_client [manifest_of foo; manifest_of bar]
                              (start synced_remote)))
  = remote (start synced_remote).
Proof.
  assert (upsert_calls
            (events (fst (Reconcile_loop store_GetProjectMetaFile
                                         store_CreateUpdateProject
                                         sample_client [manifest_of foo; manifest_of bar]
                                         (start synced_remote))))
          = upsert_calls (events (start synced_remote))) as Hnone
    by (vm_compute; reflexivity).
  split; [exact Hnone|].
  apply (no_upsert_no_change store_GetProjectMetaFile store_CreateUpdateProject
           sample_client [manifest_of foo; manifest_of bar] (start synced_remote)).
  - intros c r projectName. reflexivity.
  - exact Hnone.
Defined.

Lemma missing_credential_fatal_witness :
  os_Getenv env_no_password "OBS_PASSWORD" = EmptyString /\
  exists err,
    GetOBSCredentials env_no_password DefaultAPIURL = inl err /\
    Execute store_GetProjectMetaFile store_CreateUpdateProject env_no_password
            sample_Stat sample_ReadFile sample_Unmarshal
            (RunReconcile "manifest.yaml" DefaultAPIURL) (start sample_remote)
    = ({| remote := remote (start sample_remote);
          events := events (start sample_remote)
                    ++ [LogFatalf ("Error getting OBS credentials: " ++ err ++ nl)] |},
       Exit 1).
Proof.
  assert (os_Getenv env_no_password "OBS_PASSWORD" = EmptyString) as Hp
    by (vm_compute; reflexivity).
  split; [exact Hp|].
  exact (missing_credential_fatal store_GetProjectMetaFile store_CreateUpdateProject
           env_no_password sample_Stat sample_ReadFile sample_Unmarshal
           "manifest.yaml" DefaultAPIURL (start sample_remote) (or_intror Hp)).
Defined.

Lemma missing_manifest_reported_witness :
  sample_Stat "elsewhere.yaml" = Some "no such file or directory" /\
  Execute store_GetProjectMetaFile store_CreateUpdateProject sample_env
          sample_Stat sample_ReadFile sample_Unmarshal
          (RunReconcile "elsewhere.yaml" DefaultAPIURL) (start sample_remote)
  = ({| remote := remote (start sample_remote);
        events := events (start sample_remote)
                  ++ [Printf ("elsewhere.yaml" ++ " does not exist" ++ nl)] |},
     Ok tt).
Proof.
  assert (GetOBSCredentials sample_env DefaultAPIURL = inr sample_cred) as Hcred
    by (vm_compute; reflexivity).
  assert (sample_Stat "elsewhere.yaml" = Some "no such file or directory") as Hstat
    by (vm_compute; reflexivity).
  split; [exact Hstat|].
  exact (missing_manifest_reported store_GetProjectMetaFile store_CreateUpdateProject
           sample_env sample_Stat sample_ReadFile sample_Unmarshal
           "elsewhere.yaml" DefaultAPIURL sample_cred "no such file or directory"
           (start sample_remote) Hcred Hstat).
Defined.

Lemma unloadable_manifest_reported_witness :
  unreadable_ReadFile "manifest.yaml" = inl "permission denied" /\
  Execute store_GetProjectMetaFile store_CreateUpdateProject sample_env
          sample_Stat unreadable_ReadFile sample_Unmarshal
          (RunReconcile "manifest.yaml" DefaultAPIURL) (start sample_remote)
  = ({| remote := remote (start sample_remote);
        events := events (start sample_remote)
                  ++ [Printf (("unable to read the manifest content: "
                               ++ "permission denied") ++ nl)] |},
     Ok tt).
Proof.
  assert (GetOBSCredentials sample_env DefaultAPIURL = inr sample_cred) as Hcred
    by (vm_compute; reflexivity).
  assert (sample_Stat "manifest.yaml" = None) as Hstat by (vm_compute; reflexivity).
  assert (unreadable_ReadFile "manifest.yaml" = inl "permission denied") as Hread
    by reflexivity.
  split; [exact Hread|].
  exact (unloadable_manifest_reported store_GetProjectMetaFile store_CreateUpdateProject
           sample_env sample_Stat unreadable_ReadFile sample_Unmarshal
           "manifest.yaml" DefaultAPIURL sample_cred "permission denied"
           (start sample_remote) Hcred Hstat
           ("unable to read the manifest content: " ++ "permission denied")
           (or_introl (conj Hread eq_refl))).
Defined.

Lemma service_called_only_when_loaded_witness :
  fetch_calls
    (events (fst (Execute store_GetProjectMetaFile store_CreateUpdateProject sample_env
                          sample_Stat sample_ReadFile sample_Unmarshal
                          (RunReconcile "manifest.yaml" DefaultAPIURL)
                          (start sample_remote))))
  <> fetch_calls (events (start sample_remote)) /\
  exists manifest apiURL cred prjs,
    RunReconcile "manifest.yaml" DefaultAPIURL = RunReconcile manifest apiURL /\
    GetOBSCredentials sample_env apiURL = inr cred /\
    sample_Stat manifest = None /\
    LoadManifest sample_ReadFile sample_Unmarshal manifest = inr prjs /\
    types.Projects_ prjs <> [].
Proof.
  assert (fetch_calls
            (events (fst (Execute store_GetProjectMetaFile store_CreateUpdateProject
                                  sample_env sample_Stat sample_ReadFile sample_Unmarshal
                                  (RunReconcile "manifest.yaml" DefaultAPIURL)
                                  (start sample_remote))))
          <> fetch_calls (events (start sample_remote))) as Hcalls
    by (vm_compute; intros [=]).
  split; [exact Hcalls|].
  exact (service_called_only_when_loaded store_GetProjectMetaFile
           store_CreateUpdateProject sample_env sample_Stat sample_ReadFile
           sample_Unmarshal (RunReconcile "manifest.yaml" DefaultAPIURL)
           (start sample_remote) (or_introl Hcalls)).
Defined.

Lemma GetOBSCredentials_error_message_witness :
  GetOBSCredentials ∅ DefaultAPIURL = inl "OBS_USERNAME environment variable not set" /\
  GetOBSCredentials env_no_password DefaultAPIURL
  = inl "OBS_PASSWORD environment variable not set".
Proof.
  split.
  - apply (proj1 (GetOBSCredentials_error_message ∅ DefaultAPIURL)).
    left. reflexivity.
  - apply (proj2 (GetOBSCredentials_error_message env_no_password DefaultAPIURL) "user").
    + vm_compute; reflexivity.
    + intros [=].
    + left. vm_compute; reflexivity.
Defined.

Lemma GetOBSCredentials_other_variables_witness :
  GetOBSCredentials (<["HOME" := "/root"]> sample_env) DefaultAPIURL
  = GetOBSCredentials sample_env DefaultAPIURL /\
  GetOBSCredentials (delete "HOME" sample_env) DefaultAPIURL
  = GetOBSCredentials sample_env DefaultAPIURL.
Proof.
  apply (GetOBSCredentials_other_variables sample_env DefaultAPIURL "HOME" "/root");
    intros [=].
Defined.

Lemma store_keeps_projects :
  keeps_projects store_GetProjectMetaFile store_CreateUpdateProject store_stored.
Proof.
  split.
  - intros client r projectName. split; [reflexivity|].
    unfold store_stored, store_GetProjectMetaFile. cbn [snd].
    destruct (r !! projectName); eauto.
  - intros client r project. unfold store_stored, store_CreateUpdateProject.
    cbn [fst snd]. split; [reflexivity|]. split.
    + apply lookup_insert_eq.
    + intros projectName Hne. by apply lookup_insert_ne.
Defined.

Lemma second_run_no_upsert_witness :
  NoDup (map (fun prj => obs.Name (types.embedded prj)) [manifest_of foo; manifest_of bar]) /\
  upsert_calls
    (events (fst (Reconcile_loop store_GetProjectMetaFile store_CreateUpdateProject
                    sample_client [manifest_of foo; manifest_of bar]
                    (start (remote (fst (Reconcile_loop store_GetProjectMetaFile
                                           store_CreateUpdateProject sample_client
                                           [manifest_of foo; manifest_of bar]
                                           (start sample_remote))))))))
  = [] /\
  remote (fst (Reconcile_loop store_GetProjectMetaFile store_CreateUpdateProject
                 sample_client [manifest_of foo; manifest_of bar]
                 (start (remote (fst (Reconcile_loop store_GetProjectMetaFile
                                        store_CreateUpdateProject sample_client
                                        [manifest_of foo; manifest_of bar]
                                        (start sample_remote)))))))
  = remote (fst (Reconcile_loop store_GetProjectMetaFile store_CreateUpdateProject
                   sample_client [manifest_of foo; manifest_of bar]
                   (start sample_remote))).
Proof.
  assert (NoDup (map (fun prj => obs.Name (types.embedded prj))
                     [manifest_of foo; manifest_of bar])) as Hnodup.
  { cbn. apply NoDup_cons. split.
    - intros Hin. apply list_elem_of_singleton in Hin. discriminate Hin.
    - apply NoDup_singleton. }
  split; [exact Hnodup|].
  exact (second_run_no_upsert store_GetProjectMetaFile store_CreateUpdateProject
           store_stored store_keeps_projects sample_client
           [manifest_of foo; manifest_of bar] (start sample_remote) Hnodup).
Defined.
